(** * fast-check: the [integer] arbitrary builder and the worker runner

    A shallow embedding of
    - [packages/fast-check/src/arbitrary/integer.ts]
      ([buildCompleteIntegerConstraints], [integer]), and
    - [packages/worker/src/internals/worker-runner/WorkerRunner.ts]
      ([runWorker], [wrapAndRunAsPromise]),
    followed by the properties established about them.

    JavaScript numbers are IEEE 754 binary64 values: they are embedded as
    Rocq's primitive floats, and their comparisons are the primitive ones. *)

From Stdlib Require Import Floats ZArith.
From stdpp Require Import gmap strings list fin_maps.

(** A JavaScript completion: a call either returns or throws. *)
Inductive Completion (E A : Type) : Type :=
| Normal (a : A)
| Throw (e : E).
Arguments Normal {E A} a.
Arguments Throw {E A} & e.

Definition is_throw {E A} (c : Completion E A) : bool :=
  match c with Throw _ => true | Normal _ => false end.

(** [Number.isInteger] (ECMAScript 21.1.2.3): the argument is finite and has
    no fractional part.  A finite non-zero binary64 is [m * 2^e]. *)
Definition Number_isInteger (x : float) : bool :=
  match Prim2SF x with
  | S754_zero _ => true
  | S754_finite _ m e => (0 <=? e)%Z || (Z.pos m mod 2 ^ (- e) =? 0)%Z
  | S754_infinity _ | S754_nan => false
  end.

(* ===================================================================== *)
(** * integer.ts *)
(* ===================================================================== *)
Module Integer.

(** The values an [IntegerConstraints] field can hold: [number | undefined]. *)
Inductive Value : Type :=
| undefined
| num (x : float).

(** [v !== undefined] *)
Definition is_defined (v : Value) : bool :=
  match v with undefined => false | num _ => true end.

(** [a > b] on [number | undefined]: [undefined] converts to NaN, and every
    comparison with NaN is false. *)
Definition gt (a b : Value) : bool :=
  match a, b with
  | num x, num y => PrimFloat.ltb y x
  | _, _ => false
  end.

(** [const safeNumberIsInteger = Number.isInteger;] *)
Definition safeNumberIsInteger (v : Value) : bool :=
  match v with
  | num x => Number_isInteger x
  | undefined => false
  end.

(** Objects are property maps; reading a property that is absent yields
    [undefined].  The heap is the list of the objects allocated so far, and
    a reference is an index in it. *)
Abbreviation Obj := (gmap string Value).
Abbreviation loc := nat (only parsing).
Abbreviation Heap := (list (gmap string Value)).

Definition getProp (h : Heap) (l : loc) (k : string) : Value :=
  match h !! l with
  | Some o => default undefined (o !! k)
  | None => undefined
  end.

Definition alloc (o : Obj) (h : Heap) : loc * Heap := (length h, h ++ [o]).

(** [new Error(message)] *)
Inductive JSError : Type := Error (message : string).

Definition default_min : float := (-0x80000000)%float.
Definition default_max : float := 0x7fffffff%float.

(** [function buildCompleteIntegerConstraints(constraints)] *)
Definition buildCompleteIntegerConstraints (constraints : loc) (h : Heap)
  : loc * Heap :=
  let min := if is_defined (getProp h constraints "min")
             then getProp h constraints "min" else num default_min in
  let max := if is_defined (getProp h constraints "max")
             then getProp h constraints "max" else num default_max in
  alloc {[ "min" := min; "max" := max ]} h.

(** Modelled from the spec: the class [IntegerArbitrary] of
    [./_internals/IntegerArbitrary] is not among the sources.  The spec
    describes it as the bounded-integer arbitrary built from the two bounds;
    [new IntegerArbitrary(min, max)] is taken to allocate an object that
    holds its two arguments as [min] and [max]. *)
Definition new_IntegerArbitrary (min max : Value) (h : Heap) : loc * Heap :=
  alloc {[ "min" := min; "max" := max ]} h.

(** [export function integer(constraints: IntegerConstraints = {})];
    [None] is the call without argument. *)
Definition integer (arg : option loc) (h : Heap)
  : Completion JSError loc * Heap :=
  let '(constraints, h) :=
    match arg with
    | Some c => (c, h)
    | None => alloc ∅ h
    end in
  let '(fullConstraints, h) := buildCompleteIntegerConstraints constraints h in
  if gt (getProp h fullConstraints "min") (getProp h fullConstraints "max") then
    (Throw (Error "fc.integer maximum value should be equal or greater than the minimum one"), h)
  else if negb (safeNumberIsInteger (getProp h fullConstraints "min")) then
    (Throw (Error "fc.integer minimum value should be an integer"), h)
  else if negb (safeNumberIsInteger (getProp h fullConstraints "max")) then
    (Throw (Error "fc.integer maximum value should be an integer"), h)
  else
    let '(a, h) := new_IntegerArbitrary (getProp h fullConstraints "min")
                                        (getProp h fullConstraints "max") h in
    (Normal a, h).

(** ** Vocabulary of the statements about [integer] *)

(** The bound a constraints field stands for once the default is applied. *)
Definition bound_or (d : float) (v : Value) : float :=
  match v with num x => x | undefined => d end.

(** The field [k] of the argument as the caller passed it; a call without
    argument passes none. *)
Definition arg_prop (h : Heap) (arg : option loc) (k : string) : Value :=
  match arg with
  | Some c => getProp h c k
  | None => undefined
  end.

(** The three reasons for which a pair of bounds is refused: [min > max],
    [min] is not an integer, [max] is not an integer. *)
Definition invalid_bounds (mn mx : float) : Prop :=
  PrimFloat.ltb mx mn = true
  ∨ Number_isInteger mn = false
  ∨ Number_isInteger mx = false.

(** The object that [buildCompleteIntegerConstraints] allocates. *)
Definition completed (h : Heap) (c : loc) : Obj :=
  {[ "min" := num (bound_or default_min (getProp h c "min"));
     "max" := num (bound_or default_max (getProp h c "max")) ]}.

(** The heap in which [integer] reads the constraints (the default argument
    [{}] is a new object), and where the constraints are in it. *)
Definition entry_heap (arg : option loc) (h : Heap) : Heap :=
  match arg with Some _ => h | None => h ++ [∅] end.

Definition entry_loc (arg : option loc) (h : Heap) : loc :=
  match arg with Some c => c | None => length h end.

(** What the caller of [integer] observes: the error thrown, or the two
    bounds held by the arbitrary returned. *)
Definition observed (r : Completion JSError loc * Heap)
  : Completion JSError (Value * Value) :=
  match r.1 with
  | Normal a => Normal (getProp r.2 a "min", getProp r.2 a "max")
  | Throw e => Throw e
  end.

End Integer.

(* ===================================================================== *)
(** * WorkerRunner.ts *)
(* ===================================================================== *)
Module Worker.

(** The values that cross a [MessagePort]: what the structured clone of a
    message can contain (no functions, no promises).  The inputs and the
    outputs ([boolean | void]) of the predicate are among them. *)
#[warnings="-register-all"]
Inductive JSValue : Type :=
| JSUndefined
| JSNull
| JSBoolean (b : bool)
| JSNumber (x : float)
| JSString (s : string)
| JSArray (items : list JSValue)
| JSObject (props : gmap string JSValue).

(** What can be thrown, or be the reason of a rejection: a value that the
    structured clone accepts, or one that it refuses (a function, a symbol,
    an object that holds one), of which only a tag is kept. *)
Inductive Raised : Type :=
| Cloneable (v : JSValue)
| Uncloneable (tag : string).

Coercion Cloneable : JSValue >-> Raised.

(** The [TypeError] the engine raises; only its kind is modelled. *)
Definition TypeError (message : string) : JSValue :=
  JSObject {[ "name" := JSString "TypeError"; "message" := JSString message ]}.

(** The [DataCloneError] that [postMessage] raises. *)
Definition DataCloneError (message : string) : JSValue :=
  JSObject {[ "name" := JSString "DataCloneError"; "message" := JSString message ]}.

(** [v.k] for the property names the runner reads ([payload],
    [targetPredicateId], [runId], [source], [value]): none of them is defined
    on arrays or on the wrappers of primitives, reading from [undefined] or
    [null] throws, and a property that is absent reads as [undefined]. *)
Definition getProp (v : JSValue) (k : string) : Completion Raised JSValue :=
  match v with
  | JSUndefined | JSNull => Throw (TypeError "Cannot read properties of undefined or null")
  | JSObject props => Normal (default JSUndefined (props !! k))
  | JSBoolean _ | JSNumber _ | JSString _ | JSArray _ => Normal JSUndefined
  end.

(** [a === b] where one side is a number or a string held by the worker.
    Numbers compare as IEEE values ([NaN] differs from itself, [0] equals
    [-0]).  Objects and arrays compare by identity, and a value cloned out of
    a message is never identical to one held by the worker. *)
Definition strict_equals (a b : JSValue) : bool :=
  match a, b with
  | JSUndefined, JSUndefined => true
  | JSNull, JSNull => true
  | JSBoolean x, JSBoolean y => Bool.eqb x y
  | JSNumber x, JSNumber y => PrimFloat.eqb x y
  | JSString x, JSString y => String.eqb x y
  | _, _ => false
  end.

(** [...inputs]: arrays spread to their items and strings to their
    characters; the other values here are not iterable. *)
Definition spread (inputs : JSValue) : Completion Raised (list JSValue) :=
  match inputs with
  | JSArray items => Normal items
  | JSString s =>
      Normal (map (λ c, JSString (String c EmptyString)) (String.list_ascii_of_string s))
  | _ => Throw (TypeError "Spread syntax requires an iterable")
  end.

(** A promise, identified with the way it eventually settles. *)
Inductive Promise : Type :=
| WillFulfill (value : JSValue)
| WillReject (reason : Raised)
| NeverSettles.

(** What a call of the predicate returns: a plain value
    ([boolean | void]) or a promise of one. *)
Inductive Returned : Type :=
| RetValue (v : JSValue)
| RetPromise (p : Promise).

(** [Promise.resolve(x)] adopts [x] when it is a promise. *)
Definition Promise_resolve (x : Returned) : Promise :=
  match x with
  | RetValue v => WillFulfill v
  | RetPromise p => p
  end.

(** [Promise.reject(err)] *)
Definition Promise_reject (err : Raised) : Promise := WillReject err.

(** The calls of the two user-supplied functions, in the order made. *)
Inductive Call : Type :=
| CallBuildInputs (state : JSValue)
| CallPredicate (args : list JSValue).

(** A reaction registered by [.then(onFulfilled, onRejected)]: the two
    callbacks of [runWorker] differ from one registration to the next only by
    the [runId] they close over. *)
Record Reaction : Type := MkReaction {
  reaction_promise : Promise;
  reaction_runId : JSValue
}.

(** The worker side of the channel: the calls made so far, the reactions
    waiting for their promise, the messages posted on [parentPort], and the
    exceptions that left a listener. *)
Record State : Type := MkState {
  calls : list Call;
  reactions : list Reaction;
  posted : list JSValue;
  uncaught : list Raised
}.

Definition initial : State := MkState [] [] [] [].

(** Computations over the worker's state that may throw. *)
Definition M (A : Type) : Type := State → Completion Raised A * State.

Definition ret {A} (a : A) : M A := λ s, (Normal a, s).

Definition bind {A B} (m : M A) (f : A → M B) : M B :=
  λ s, match m s with
       | (Normal a, s') => f a s'
       | (Throw e, s') => (Throw e, s')
       end.

Definition lift {A} (c : Completion Raised A) : M A := λ s, (c, s).

(** [try { body } catch (err) { handler }] *)
Definition try_catch {A} (body : M A) (handler : Raised → M A) : M A :=
  λ s, match body s with
       | (Normal a, s') => (Normal a, s')
       | (Throw err, s') => handler err s'
       end.

Notation "x <- m ;; k" := (bind m (λ x, k))
  (at level 100, m at next level, right associativity, only parsing).

(** The three ways in which the runner changes the state. *)
Definition logged (c : Call) (s : State) : State :=
  MkState (calls s ++ [c]) (reactions s) (posted s) (uncaught s).

Definition waiting (p : Promise) (runId : JSValue) (s : State) : State :=
  MkState (calls s) (reactions s ++ [MkReaction p runId]) (posted s) (uncaught s).

Definition sent (message : JSValue) (s : State) : State :=
  MkState (calls s) (reactions s) (posted s ++ [message]) (uncaught s).

Definition log_call (c : Call) : M unit := λ s, (Normal tt, logged c s).

(** The structured clone of an object given by its properties: it fails
    when one of them cannot be cloned. *)
Fixpoint structuredClone (props : list (string * Raised))
  : option (list (string * JSValue)) :=
  match props with
  | [] => Some []
  | (k, Cloneable v) :: props' =>
      match structuredClone props' with
      | Some copy => Some ((k, v) :: copy)
      | None => None
      end
  | (_, Uncloneable _) :: _ => None
  end.

(** [parentPort.postMessage(message)]: the other side receives a clone of
    the message; a message that cannot be cloned is not sent and the call
    throws. *)
Definition postMessage (message : list (string * Raised)) : M unit :=
  λ s, match structuredClone message with
       | Some copy => (Normal tt, sent (JSObject (list_to_map copy)) s)
       | None => (Throw (Cloneable (DataCloneError "The message could not be cloned")), s)
       end.

(** [promise.then(onFulfilled, onRejected)] with the callbacks of
    [runWorker] closing over [runId]. *)
Definition then_ (p : Promise) (runId : JSValue) : M unit :=
  λ s, (Normal tt, waiting p runId s).

(** [(output) => { const message = { success: true, output, runId };
                   parentPort.postMessage(message); }] *)
Definition onFulfilled (runId output : JSValue) : M unit :=
  let message :=
    [ ("success", Cloneable (JSBoolean true));
      ("output", Cloneable output);
      ("runId", Cloneable runId) ] in
  postMessage message.

(** [(error) => { const message = { success: false, error, runId };
                  parentPort.postMessage(message); }] *)
Definition onRejected (runId : JSValue) (error : Raised) : M unit :=
  let message :=
    [ ("success", Cloneable (JSBoolean false));
      ("error", error);
      ("runId", Cloneable runId) ] in
  postMessage message.

Section WorkerRunner.

(** The arguments of [runWorker]; [parentPort] is the [posted] component of
    the state.  The predicate is taken to be a function of its arguments,
    and a promise it returns to settle in the way that is fixed when it is
    returned. *)
Variable predicateId : float.
Variable predicate : list JSValue → Completion Raised Returned.
Variable buildInputs : JSValue → Completion Raised JSValue.

Definition call_predicate (args : list JSValue) : M Returned :=
  _ <- log_call (CallPredicate args) ;; lift (predicate args).

Definition call_buildInputs (state : JSValue) : M JSValue :=
  _ <- log_call (CallBuildInputs state) ;; lift (buildInputs state).

(** [function wrapAndRunAsPromise(predicate, inputs)] *)
Definition wrapAndRunAsPromise (inputs : JSValue) : M Promise :=
  try_catch
    (args <- lift (spread inputs) ;;
     r <- call_predicate args ;;
     ret (Promise_resolve r))
    (λ err, ret (Promise_reject err)).

(** [runWorker(parentPort, predicateId, predicate, buildInputs)] installs one
    listener on ['message']; this is that listener. *)
Definition runWorker (message : JSValue) : M unit :=
  payload <- lift (getProp message "payload") ;;
  targetPredicateId <- lift (getProp message "targetPredicateId") ;;
  runId <- lift (getProp message "runId") ;;
  if negb (strict_equals targetPredicateId (JSNumber predicateId)) then
    ret tt
  else
    source <- lift (getProp payload "source") ;;
    inputs <- (if strict_equals source (JSString "main")
              then lift (getProp payload "value")
              else call_buildInputs payload) ;;
    p <- wrapAndRunAsPromise inputs ;;
    then_ p runId.

(** What can happen on the worker: a message is delivered to the listener,
    or the promise of the [k]-th waiting reaction settles and its callback
    runs.  Which of them happens next is not decided by the worker. *)
Inductive Event : Type :=
| Deliver (message : JSValue)
| Settle (k : nat).

Definition remove_reaction (k : nat) (s : State) : State :=
  MkState (calls s) (delete k (reactions s)) (posted s) (uncaught s).

Definition record_uncaught (r : Completion Raised unit * State) : State :=
  match r with
  | (Normal _, s) => s
  | (Throw e, s) => MkState (calls s) (reactions s) (posted s) (uncaught s ++ [e])
  end.

(** One event; [None] when the event cannot happen in that state.  An
    exception of the listener is the worker's; an exception of a callback
    only rejects the promise that [then] returned, which nothing holds. *)
Definition step (ev : Event) (s : State) : option State :=
  match ev with
  | Deliver message => Some (record_uncaught (runWorker message s))
  | Settle k =>
      match reactions s !! k with
      | Some (MkReaction (WillFulfill output) runId) =>
          Some (onFulfilled runId output (remove_reaction k s)).2
      | Some (MkReaction (WillReject error) runId) =>
          Some (onRejected runId error (remove_reaction k s)).2
      | Some (MkReaction NeverSettles _) | None => None
      end
  end.

Fixpoint exec (trace : list Event) (s : State) : option State :=
  match trace with
  | [] => Some s
  | ev :: trace' =>
      match step ev s with
      | Some s' => exec trace' s'
      | None => None
      end
  end.

(** ** Vocabulary of the statements about the runner *)

(** The field [k] of a message, [undefined] when there is none. *)
Definition field (v : JSValue) (k : string) : JSValue :=
  match v with
  | JSObject props => default JSUndefined (props !! k)
  | _ => JSUndefined
  end.

(** A message is accepted when its [targetPredicateId] is the id the worker
    was registered with. *)
Definition accepts (message : JSValue) : bool :=
  strict_equals (field message "targetPredicateId") (JSNumber predicateId).

(** The inputs a payload stands for: its [value] when its source is
    ['main'], what [buildInputs] makes of it otherwise. *)
Definition inputs_of (payload : JSValue) : Completion Raised JSValue :=
  match getProp payload "source" with
  | Throw e => Throw e
  | Normal source =>
      if strict_equals source (JSString "main")
      then getProp payload "value"
      else buildInputs payload
  end.

(** The state in which the inputs are at hand: [buildInputs] has been
    called unless the payload came from the main thread. *)
Definition after_inputs (payload : JSValue) (s : State) : State :=
  match getProp payload "source" with
  | Normal source =>
      if strict_equals source (JSString "main") then s
      else logged (CallBuildInputs payload) s
  | Throw _ => s
  end.

(** The promise the guarded call of the predicate gives for some inputs:
    rejected when the inputs cannot be spread or the predicate throws, and
    otherwise what [Promise.resolve] makes of the value returned. *)
Definition promise_for (inputs : JSValue) : Promise :=
  match spread inputs with
  | Throw err => WillReject err
  | Normal args =>
      match predicate args with
      | Normal r => Promise_resolve r
      | Throw err => WillReject err
      end
  end.

(** The run a message starts: none unless the message is accepted and its
    inputs are obtained; the run has the [runId] of the message and the
    promise of the predicate on its inputs. *)
Definition reaction_for (message : JSValue) : list Reaction :=
  if accepts message then
    match inputs_of (field message "payload") with
    | Normal inputs => [MkReaction (promise_for inputs) (field message "runId")]
    | Throw _ => []
    end
  else [].

(** The calls a message causes: [buildInputs] on the payload of an accepted
    message that is not from the main thread, then the predicate on the
    inputs once they are obtained and spread. *)
Definition calls_for (message : JSValue) : list Call :=
  if accepts message then
    calls (after_inputs (field message "payload") initial)
    ++ match inputs_of (field message "payload") with
       | Normal inputs =>
           match spread inputs with
           | Normal args => [CallPredicate args]
           | Throw _ => []
           end
       | Throw _ => []
       end
  else [].

(** The exception a message makes the listener throw: reading a message
    that is [undefined] or [null], or failing to obtain the inputs of an
    accepted message. *)
Definition uncaught_for (message : JSValue) : list Raised :=
  match getProp message "payload" with
  | Throw e => [e]
  | Normal payload =>
      if accepts message then
        match inputs_of payload with
        | Throw e => [e]
        | Normal _ => []
        end
      else []
  end.

End WorkerRunner.

(** The messages a trace delivers, in order. *)
Fixpoint deliveries (trace : list Event) : list JSValue :=
  match trace with
  | [] => []
  | Deliver message :: trace' => message :: deliveries trace'
  | Settle _ :: trace' => deliveries trace'
  end.


(** The two shapes of [WorkerToMainThreadMessage]. *)
Definition success_message (runId output : JSValue) : JSValue :=
  JSObject {[ "runId" := runId; "success" := JSBoolean true; "output" := output ]}.

Definition failure_message (runId error : JSValue) : JSValue :=
  JSObject {[ "runId" := runId; "success" := JSBoolean false; "error" := error ]}.

(** The response with which a run is answered once its promise settles;
    none for a promise that never does, and none for a rejection whose
    reason cannot be cloned. *)
Definition answer (r : Reaction) : list JSValue :=
  match reaction_promise r with
  | WillFulfill output => [success_message (reaction_runId r) output]
  | WillReject (Cloneable error) => [failure_message (reaction_runId r) error]
  | WillReject (Uncloneable _) => []
  | NeverSettles => []
  end.

(** A [MainThreadToWorkerMessage] as the runner reads it. *)
Definition message_props (targetPredicateId runId payload : JSValue)
  : gmap string JSValue :=
  {[ "targetPredicateId" := targetPredicateId;
     "runId" := runId;
     "payload" := payload ]}.

Definition run_message (targetPredicateId runId payload : JSValue) : JSValue :=
  JSObject (message_props targetPredicateId runId payload).

End Worker.

(* ===================================================================== *)
(** * Sample workers and messages *)
(* ===================================================================== *)
Module Samples.
Import Worker.

(** [(x) => { if (!(x < 50)) throw 'Property failed'; }] *)
Definition below_fifty (args : list JSValue) : Completion Raised Returned :=
  match args with
  | [JSNumber x] =>
      if PrimFloat.ltb x 50 then Normal (RetValue JSUndefined)
      else Throw (JSString "Property failed")
  | _ => Normal (RetValue JSUndefined)
  end.

(** [async (x) => { if (!(x < 50)) throw 'Property failed'; }] *)
Definition below_fifty_async (args : list JSValue) : Completion Raised Returned :=
  match args with
  | [JSNumber x] =>
      if PrimFloat.ltb x 50 then Normal (RetPromise (WillFulfill JSUndefined))
      else Normal (RetPromise (WillReject (JSString "Property failed")))
  | _ => Normal (RetPromise (WillFulfill JSUndefined))
  end.

(** A reconstruction of the inputs from the [seed] of a state; it throws
    when the state has none. *)
Definition from_seed (state : JSValue) : Completion Raised JSValue :=
  match field state "seed" with
  | JSNumber x => Normal (JSArray [JSNumber x])
  | _ => Throw (JSString "unknown state")
  end.

Definition main_payload (x : float) : gmap string JSValue :=
  {[ "source" := JSString "main"; "value" := JSArray [JSNumber x] ]}.

Definition state_payload (x : float) : gmap string JSValue :=
  {[ "source" := JSString "state"; "seed" := JSNumber x ]}.

Definition seedless_payload : gmap string JSValue :=
  {[ "source" := JSString "state" ]}.

(** [(x) => x < 50] *)
Definition is_below_fifty (args : list JSValue) : Completion Raised Returned :=
  match args with
  | [JSNumber x] => Normal (RetValue (JSBoolean (PrimFloat.ltb x 50)))
  | _ => Normal (RetValue (JSBoolean false))
  end.

(** [async (x) => x < 50] *)
Definition is_below_fifty_async (args : list JSValue)
  : Completion Raised Returned :=
  match args with
  | [JSNumber x] =>
      Normal (RetPromise (WillFulfill (JSBoolean (PrimFloat.ltb x 50))))
  | _ => Normal (RetPromise (WillFulfill (JSBoolean false)))
  end.

(** [() => { throw Object.assign(new Error('failed'), { retry() {} }); }]:
    the error holds a function, which the structured clone refuses. *)
Definition throwing_uncloneable (args : list JSValue)
  : Completion Raised Returned :=
  Throw (Uncloneable "an error that holds a function").

(** [async () => { throw Object.assign(new Error('failed'), { retry() {} }); }] *)
Definition rejecting_uncloneable (args : list JSValue)
  : Completion Raised Returned :=
  Normal (RetPromise (WillReject (Uncloneable "an error that holds a function"))).

(** Four messages for the worker of predicate 1: a run on materialized
    inputs, a run on a state, a message for another predicate, and a run
    on a state that cannot be rebuilt. *)
Definition sample_deliveries : list Event :=
  [ Deliver (run_message (JSNumber 1) (JSNumber 100) (JSObject (main_payload 3)));
    Deliver (run_message (JSNumber 1) (JSNumber 101) (JSObject (state_payload 73)));
    Deliver (run_message (JSNumber 2) (JSNumber 102) (JSObject (main_payload 3)));
    Deliver (run_message (JSNumber 1) (JSNumber 103) (JSObject seedless_payload)) ].

Definition sample_calls : list Call :=
  [ CallPredicate [JSNumber 3];
    CallBuildInputs (JSObject (state_payload 73));
    CallPredicate [JSNumber 73];
    CallBuildInputs (JSObject seedless_payload) ].

(** The worker of [below_fifty] once the two runs are answered, the second
    before the first. *)
Definition sample_state_101_100 : State :=
  MkState sample_calls []
          [ failure_message (JSNumber 101) (JSString "Property failed");
            success_message (JSNumber 100) JSUndefined ]
          [Cloneable (JSString "unknown state")].

End Samples.

(* ===================================================================== *)
(** * The script of the Safe Release workflow *)
(* ===================================================================== *)
Module SafeRelease.

(** What [JSON.parse] returns.  An object is the list of its properties in
    the order in which [Object.values] enumerates them, each key once. *)
#[warnings="-register-all"]
Inductive Json : Type :=
| JNull
| JBool (b : bool)
| JNumber (x : float)
| JString (s : string)
| JArray (items : list Json)
| JObject (props : list (string * Json)).

(** What the script throws itself, and what the engine throws for it. *)
Inductive Thrown : Type :=
| Error (message : string)
| TypeError (message : string).

Fixpoint assoc (k : string) (props : list (string * Json)) : option Json :=
  match props with
  | [] => None
  | (k', v) :: props' => if String.eqb k k' then Some v else assoc k props'
  end.

(** [v.k] for the names the script reads ([private], [dependencies],
    [peerDependencies]); [None] is [undefined]. *)
Definition getProp (v : Json) (k : string) : Completion Thrown (option Json) :=
  match v with
  | JNull => Throw (TypeError "Cannot read properties of null")
  | JObject props => Normal (assoc k props)
  | JBool _ | JNumber _ | JString _ | JArray _ => Normal None
  end.

(** The values that count as true in [if (v)] and [v || w]. *)
Definition truthy (v : option Json) : bool :=
  match v with
  | None | Some JNull => false
  | Some (JBool b) => b
  | Some (JNumber x) => negb (PrimFloat.eqb x 0) && PrimFloat.eqb x x
  | Some (JString s) => negb (String.eqb s "")
  | Some (JArray _) | Some (JObject _) => true
  end.

(** [Object.values(v || {})]: the values of an object, the items of an
    array, the characters of a string; nothing for what is false (replaced
    by [{}]) and for [true] and the numbers, which have no property. *)
Definition values_or_empty (v : option Json) : list Json :=
  if truthy v then
    match v with
    | Some (JObject props) => map snd props
    | Some (JArray items) => items
    | Some (JString s) =>
        map (λ c, JString (String c EmptyString)) (String.list_ascii_of_string s)
    | _ => []
    end
  else [].

(** One of the two inner loops:
    [for (const depVersion of versions) {
       if (depVersion.startsWith('workspace:')) throw new Error(...) }];
    [label] is how the message starts.  Only strings have [startsWith]. *)
Fixpoint check_versions (label file : string) (versions : list Json)
  : Completion Thrown unit :=
  match versions with
  | [] => Normal tt
  | JString depVersion :: versions' =>
      if String.prefix "workspace:" depVersion then
        Throw (Error (label ++ " cannot start by workspace at release time, got: "
                      ++ depVersion ++ " in " ++ file))
      else check_versions label file versions'
  | _ :: _ => Throw (TypeError "depVersion.startsWith is not a function")
  end.

(** The body of the outer loop for one file, given what was read and
    parsed from it. *)
Definition check_file (file : string) (fileContent : Json)
  : Completion Thrown unit :=
  match getProp fileContent "private" with
  | Throw e => Throw e
  | Normal private =>
      if truthy private then Normal tt
      else
        match getProp fileContent "dependencies" with
        | Throw e => Throw e
        | Normal dependencies =>
            match check_versions "Dependencies" file
                    (values_or_empty dependencies) with
            | Throw e => Throw e
            | Normal _ =>
                match getProp fileContent "peerDependencies" with
                | Throw e => Throw e
                | Normal peerDependencies =>
                    check_versions "Peer-Dependencies" file
                      (values_or_empty peerDependencies)
                end
            end
        end
  end.

(** The script, over the [package.json] files that the glob lists, each
    with its parsed content: [for (const file of files) { ... }]. *)
Fixpoint safe_release (files : list (string * Json)) : Completion Thrown unit :=
  match files with
  | [] => Normal tt
  | (file, fileContent) :: files' =>
      match check_file file fileContent with
      | Throw e => Throw e
      | Normal _ => safe_release files'
      end
  end.

(** ** Vocabulary of the statements about the script *)

(** The property [k] of a manifest, [None] when there is none. *)
Definition entry (fileContent : Json) (k : string) : option Json :=
  match fileContent with
  | JObject props => assoc k props
  | _ => None
  end.

Definition is_private (fileContent : Json) : bool :=
  truthy (entry fileContent "private").

(** The versions that a manifest lists under [k]. *)
Definition versions_under (k : string) (fileContent : Json) : list Json :=
  values_or_empty (entry fileContent k).

(** A version that refers to the workspace. *)
Definition refers_to_workspace (version : Json) : bool :=
  match version with
  | JString s => String.prefix "workspace:" s
  | _ => false
  end.

Definition is_string (v : Json) : bool :=
  match v with JString _ => true | _ => false end.

(** A manifest the script can read to the end: it is not [null], and, when
    it is not private, the versions under [dependencies] and
    [peerDependencies] are strings. *)
Definition readable (fileContent : Json) : Prop :=
  fileContent ≠ JNull
  ∧ (is_private fileContent = false →
     Forall (λ v, is_string v = true)
            (versions_under "dependencies" fileContent
             ++ versions_under "peerDependencies" fileContent)).

(** A manifest that may be released: private, or without any version that
    refers to the workspace under [dependencies] and [peerDependencies]. *)
Definition releasable (fileContent : Json) : Prop :=
  is_private fileContent = true
  ∨ Forall (λ v, refers_to_workspace v = false)
           (versions_under "dependencies" fileContent
            ++ versions_under "peerDependencies" fileContent).

(** Two manifests that the script cannot tell apart: both private, or both
    public with the same [dependencies] and [peerDependencies]. *)
Definition same_for_release (c1 c2 : Json) : Prop :=
  c1 ≠ JNull ∧ c2 ≠ JNull
  ∧ is_private c1 = is_private c2
  ∧ (is_private c1 = false →
     entry c1 "dependencies" = entry c2 "dependencies"
     ∧ entry c1 "peerDependencies" = entry c2 "peerDependencies").

(** ** Sample manifests *)

(** A public package whose only reference to the workspace is under
    [devDependencies]. *)
Definition library_manifest : Json :=
  JObject [ ("name", JString "fast-check");
            ("dependencies", JObject [("pure-rand", JString "^6.1.0")]);
            ("devDependencies",
             JObject [("@fast-check/worker", JString "workspace:*")]) ].

(** The same package as far as the script goes. *)
Definition library_manifest_trimmed : Json :=
  JObject [ ("dependencies", JObject [("pure-rand", JString "^6.1.0")]) ].

(** A public package with a peer dependency on the workspace. *)
Definition worker_manifest : Json :=
  JObject [ ("name", JString "@fast-check/worker");
            ("dependencies", JObject []);
            ("peerDependencies",
             JObject [("fast-check", JString "workspace:*")]) ].

(** A private package that depends on the workspace. *)
Definition website_manifest : Json :=
  JObject [ ("name", JString "website");
            ("private", JBool true);
            ("dependencies", JObject [("fast-check", JString "workspace:*")]) ].

End SafeRelease.

(* ===================================================================== *)
(** * Properties of integer.ts *)
(* ===================================================================== *)
Module IntegerSpec.
Import Integer.

(** [Number.isInteger] on whole numbers, fractions, both zeros, the largest
    power of two below the overflow, and the values that are not finite. *)
Example Number_isInteger_samples :
  map Number_isInteger
      [5; -99; 0; -0; 9007199254740992; 0x1p1023; 0.5; 2251799813685248.5;
       0x1p-1074; infinity; neg_infinity; nan]%float
  = [true; true; true; true; true; true; false; false; false; false; false; false].
Proof. reflexivity. Qed.

(** The three calls of the documentation of [integer], and a bound that is
    not a number. *)
Example integer_samples :
  let bounds (r : Completion JSError loc * Heap) :=
    match r.1 with
    | Normal a => Some (getProp r.2 a "min", getProp r.2 a "max")
    | Throw _ => None
    end in
  bounds (integer None []) = Some (num (-2147483648), num 2147483647)
  ∧ bounds (integer (Some 0) [ {[ "min" := num (-99); "max" := num 99 ]} ])
    = Some (num (-99), num 99)
  ∧ bounds (integer (Some 0) [ {[ "min" := num 65536 ]} ])
    = Some (num 65536, num 2147483647)
  ∧ (integer (Some 0) [ {[ "min" := num nan ]} ]).1
    = Throw (Error "fc.integer minimum value should be an integer").
Proof. by repeat split. Qed.

Lemma getProp_alloc_fresh (h : Heap) (o : Obj) (k : string) :
  getProp (h ++ [o]) (length h) k = default undefined (o !! k).
Proof.
  unfold getProp.
  by rewrite lookup_app_r, Nat.sub_diag.
Qed.

Lemma buildCompleteIntegerConstraints_eq (h : Heap) (c : loc) :
  buildCompleteIntegerConstraints c h = (length h, h ++ [completed h c]).
Proof.
  unfold buildCompleteIntegerConstraints, alloc, completed.
  destruct (getProp h c "min"), (getProp h c "max"); reflexivity.
Qed.

Lemma completed_min (h : Heap) (c : loc) :
  default undefined (completed h c !! "min")
  = num (bound_or default_min (getProp h c "min")).
Proof. reflexivity. Qed.

Lemma completed_max (h : Heap) (c : loc) :
  default undefined (completed h c !! "max")
  = num (bound_or default_max (getProp h c "max")).
Proof. reflexivity. Qed.

Lemma entry_prop (arg : option loc) (h : Heap) (k : string) :
  getProp (entry_heap arg h) (entry_loc arg h) k = arg_prop h arg k.
Proof.
  destruct arg as [c|]; simpl; [done|].
  by rewrite getProp_alloc_fresh.
Qed.

Lemma integer_eq (arg : option loc) (h : Heap) :
  let h1 := entry_heap arg h in
  let mn := bound_or default_min (arg_prop h arg "min") in
  let mx := bound_or default_max (arg_prop h arg "max") in
  let full : Obj := {[ "min" := num mn; "max" := num mx ]} in
  integer arg h =
    if PrimFloat.ltb mx mn then
      (Throw (Error "fc.integer maximum value should be equal or greater than the minimum one"),
       h1 ++ [full])
    else if negb (Number_isInteger mn) then
      (Throw (Error "fc.integer minimum value should be an integer"), h1 ++ [full])
    else if negb (Number_isInteger mx) then
      (Throw (Error "fc.integer maximum value should be an integer"), h1 ++ [full])
    else (Normal (S (length h1)), (h1 ++ [full]) ++ [full]).
Proof.
  intros h1 mn mx full.
  assert (Hfull : completed h1 (entry_loc arg h) = full).
  { unfold completed, full, mn, mx, h1. by rewrite !entry_prop. }
  unfold integer.
  replace (match arg with Some c => (c, h) | None => alloc ∅ h end)
    with (entry_loc arg h, h1) by (by destruct arg).
  rewrite buildCompleteIntegerConstraints_eq, Hfull.
  rewrite !getProp_alloc_fresh.
  change (default undefined (full !! "min")) with (num mn).
  change (default undefined (full !! "max")) with (num mx).
  simpl gt. simpl safeNumberIsInteger.
  destruct (PrimFloat.ltb mx mn); [done|].
  destruct (Number_isInteger mn); simpl; [|done].
  destruct (Number_isInteger mx); simpl; [|done].
  unfold new_IntegerArbitrary, alloc.
  by rewrite length_app, Nat.add_comm.
Qed.

Lemma integer_outcome (arg : option loc) (h : Heap) :
  let mn := bound_or default_min (arg_prop h arg "min") in
  let mx := bound_or default_max (arg_prop h arg "max") in
  match (integer arg h).1 with
  | Throw _ => invalid_bounds mn mx
  | Normal a =>
      ¬ invalid_bounds mn mx
      ∧ getProp (integer arg h).2 a "min" = num mn
      ∧ getProp (integer arg h).2 a "max" = num mx
  end.
Proof.
  intros mn mx. rewrite integer_eq. fold mn mx. unfold invalid_bounds.
  destruct (PrimFloat.ltb mx mn) eqn:Hlt; simpl; [by left|].
  destruct (Number_isInteger mn) eqn:Hmn; simpl; [|by right; left].
  destruct (Number_isInteger mx) eqn:Hmx; simpl; [|by right; right].
  split; [intros [?|[?|?]]; congruence|].
  replace (S (length (entry_heap arg h)))
    with (length (entry_heap arg h ++ [{[ "min" := num mn; "max" := num mx ]}]))
    by (rewrite length_app; simpl; lia).
  by rewrite !getProp_alloc_fresh.
Qed.

(** C3: [integer] throws, as its own result and so before anything is
    generated, if and only if the bounds obtained after the defaults are
    inverted ([min > max]) or one of them is not an integer; otherwise it
    returns an [IntegerArbitrary] built with exactly those two bounds.  In
    particular [integer({min: 5, max: 2})] throws. *)
Theorem integer_throws_iff_invalid :
  (∀ (arg : option loc) (h : Heap),
     let mn := bound_or (-2147483648) (arg_prop h arg "min") in
     let mx := bound_or 2147483647 (arg_prop h arg "max") in
     let r := integer arg h in
     (is_throw r.1 = true ↔ invalid_bounds mn mx)
     ∧ (¬ invalid_bounds mn mx →
        ∃ a, r.1 = Normal a
             ∧ getProp r.2 a "min" = num mn
             ∧ getProp r.2 a "max" = num mx))
  ∧ (integer (Some 0) [ {[ "min" := num 5; "max" := num 2 ]} ]).1
    = Throw (Error "fc.integer maximum value should be equal or greater than the minimum one").
Proof.
  split; [|reflexivity].
  intros arg h mn mx r.
  pose proof (integer_outcome arg h) as H; simpl in H. fold mn mx r in H.
  destruct r.1 as [a|e]; simpl.
  - destruct H as (Hvalid & Hmin & Hmax).
    split; [split; [done|by intros ?]|]. eauto.
  - split; [done|]. by intros ?.
Qed.

(** C7: the completed constraints hold the bound the caller gave when there
    is one, and otherwise -2147483648 (that is -2^31) for [min] and
    2147483647 (that is 2^31 - 1) for [max]; these are the bounds [integer]
    builds its arbitrary with. *)
Theorem buildCompleteIntegerConstraints_defaults (constraints : loc) (h : Heap) :
  let full := buildCompleteIntegerConstraints constraints h in
  getProp full.2 full.1 "min"
    = match getProp h constraints "min" with
      | num x => num x
      | undefined => num (-2147483648)
      end
  ∧ getProp full.2 full.1 "max"
    = match getProp h constraints "max" with
      | num x => num x
      | undefined => num 2147483647
      end
  ∧ (-2147483648 = - Z.ldexp 1 31 ∧ 2147483647 = Z.ldexp 1 31 - 1)%float
  ∧ match (integer (Some constraints) h).1 with
    | Normal a =>
        getProp (integer (Some constraints) h).2 a "min" = getProp full.2 full.1 "min"
        ∧ getProp (integer (Some constraints) h).2 a "max" = getProp full.2 full.1 "max"
    | Throw _ => True
    end.
Proof.
  intros full. unfold full.
  rewrite buildCompleteIntegerConstraints_eq; simpl.
  rewrite !getProp_alloc_fresh, completed_min, completed_max.
  split; [by destruct (getProp h constraints "min")|].
  split; [by destruct (getProp h constraints "max")|].
  split; [by split|].
  pose proof (integer_outcome (Some constraints) h) as H; simpl in H.
  destruct (integer (Some constraints) h).1; [|done].
  by destruct H as (_ & -> & ->).
Qed.

(** C10: [integer] leaves the constraints object it is given as it was (no
    object that existed before the call is changed), and what is read from
    the returned arbitrary does not depend on what is later written into
    the constraints object. *)
Theorem integer_leaves_constraints_untouched
    (h : Heap) (constraints : loc) (o : Obj) :
  h !! constraints = Some o →
  let r := integer (Some constraints) h in
  r.2 !! constraints = Some o
  ∧ h `prefix_of` r.2
  ∧ ∀ a, r.1 = Normal a →
      ∀ (o' : Obj) (k : string),
        getProp (<[constraints := o']> r.2) a k = getProp r.2 a k.
Proof.
  intros Hc r. subst r.
  assert (Hlt : constraints < length h) by (by eapply lookup_lt_Some).
  rewrite integer_eq; simpl entry_heap.
  set (full := ({[ "min" := _; "max" := _ ]} : Obj)).
  destruct (PrimFloat.ltb _ _); [|destruct (negb _); [|destruct (negb _)]]; simpl.
  1-3: split; [by rewrite lookup_app_l|];
       split; [by eexists|]; intros a [=].
  split; [by rewrite <- app_assoc, lookup_app_l|].
  split; [rewrite <- app_assoc; by eexists|].
  intros a [= <-] o' k. unfold getProp.
  rewrite list_lookup_insert_ne by lia. done.
Qed.

Lemma integer_leaves_constraints_untouched_witness :
  let h : Heap := [ {[ "min" := num (-99); "max" := num 99 ]} ] in
  let r := integer (Some 0) h in
  r.2 !! 0 = Some ({[ "min" := num (-99); "max" := num 99 ]} : Obj)
  ∧ h `prefix_of` r.2
  ∧ ∀ a, r.1 = Normal a →
      ∀ (o' : Obj) (k : string), getProp (<[0 := o']> r.2) a k = getProp r.2 a k.
Proof.
  intros h.
  exact (integer_leaves_constraints_untouched h 0 _ eq_refl).
Defined.

End IntegerSpec.

(* ===================================================================== *)
(** * Properties of WorkerRunner.ts *)
(* ===================================================================== *)
Module WorkerSpec.
Import Worker.

Lemma delete_length_app {A} (l : list A) (x : A) :
  delete (length l) (l ++ [x]) = l.
Proof. induction l as [|y l IH]; simpl; [done|]. by rewrite IH. Qed.

Section Runner.

Variable predicateId : float.
Variable predicate : list JSValue → Completion Raised Returned.
Variable buildInputs : JSValue → Completion Raised JSValue.

#[local] Abbreviation runWorker := (runWorker predicateId predicate buildInputs).
#[local] Abbreviation wrapAndRunAsPromise := (wrapAndRunAsPromise predicate).
#[local] Abbreviation step := (step predicateId predicate buildInputs).
#[local] Abbreviation exec := (exec predicateId predicate buildInputs).
#[local] Abbreviation accepts := (accepts predicateId).
#[local] Abbreviation inputs_of := (inputs_of buildInputs).
#[local] Abbreviation promise_for := (promise_for predicate).
#[local] Abbreviation reaction_for := (reaction_for predicateId predicate buildInputs).
#[local] Abbreviation calls_for := (calls_for predicateId buildInputs).
#[local] Abbreviation uncaught_for := (uncaught_for predicateId buildInputs).

(** The guarded scope always hands back a promise. *)
Lemma wrapAndRunAsPromise_eq (inputs : JSValue) (s : State) :
  wrapAndRunAsPromise inputs s =
    match spread inputs with
    | Throw err => (Normal (WillReject err), s)
    | Normal args =>
        (Normal match predicate args with
                | Normal r => Promise_resolve r
                | Throw err => WillReject err
                end,
         logged (CallPredicate args) s)
    end.
Proof.
  unfold Worker.wrapAndRunAsPromise, try_catch, bind, lift, call_predicate, log_call, ret.
  destruct (spread inputs) as [args|err]; [|done].
  by destruct (predicate args).
Qed.

Lemma wrapAndRunAsPromise_returns (inputs : JSValue) (s : State) :
  ∃ p s', wrapAndRunAsPromise inputs s = (Normal p, s')
          ∧ reactions s' = reactions s ∧ posted s' = posted s
          ∧ uncaught s' = uncaught s.
Proof.
  rewrite wrapAndRunAsPromise_eq.
  destruct (spread inputs); eauto 10.
Qed.

Lemma runWorker_object (props : gmap string JSValue) (s : State) :
  let message := JSObject props in
  runWorker message s =
    if accepts message then
      match inputs_of (field message "payload") with
      | Throw e => (Throw e, after_inputs (field message "payload") s)
      | Normal inputs =>
          match wrapAndRunAsPromise inputs
                  (after_inputs (field message "payload") s) with
          | (Normal p, s') => (Normal tt, waiting p (field message "runId") s')
          | (Throw e, s') => (Throw e, s')
          end
      end
    else (Normal tt, s).
Proof.
  unfold Worker.runWorker, Worker.accepts, Worker.inputs_of, Worker.after_inputs,
    bind, lift, ret, then_, call_buildInputs, log_call; simpl.
  destruct (strict_equals _ (JSNumber predicateId)); simpl; [|done].
  destruct (getProp (default JSUndefined (props !! "payload")) "source")
    as [source|e]; [|done].
  destruct (strict_equals source (JSString "main")).
  - by destruct (getProp _ "value").
  - by destruct (buildInputs _).
Qed.

Lemma after_inputs_frame (payload : JSValue) (s : State) :
  reactions (after_inputs payload s) = reactions s
  ∧ posted (after_inputs payload s) = posted s
  ∧ uncaught (after_inputs payload s) = uncaught s.
Proof.
  unfold after_inputs.
  destruct (getProp payload "source") as [source|]; [|done].
  by destruct (strict_equals source (JSString "main")).
Qed.

(** What the listener leaves behind for an accepted message: either the
    exception met while obtaining the inputs, or one more reaction. *)
Lemma runWorker_accepted (props : gmap string JSValue) (s : State) :
  let message := JSObject props in
  accepts message = true →
  let s' := (runWorker message s).2 in
  posted s' = posted s ∧ uncaught s' = uncaught s
  ∧ match inputs_of (field message "payload") with
    | Throw e => (runWorker message s).1 = Throw e ∧ reactions s' = reactions s
    | Normal _ =>
        (runWorker message s).1 = Normal tt
        ∧ ∃ p, reactions s' = reactions s ++ [MkReaction p (field message "runId")]
    end.
Proof.
  intros message Hacc s'. subst s' message.
  rewrite runWorker_object, Hacc.
  set (payload := field (JSObject props) "payload").
  set (runId := field (JSObject props) "runId").
  clearbody payload runId.
  destruct (after_inputs_frame payload s) as (Hr & Hp & Hu).
  destruct (inputs_of payload) as [inputs|e]; [|done].
  rewrite wrapAndRunAsPromise_eq.
  destruct (spread inputs); cbn -[after_inputs]; rewrite Hr, Hp, Hu; eauto.
Qed.

(** C4: a message whose [targetPredicateId] is not the id the worker was
    registered with leaves the worker as it was: no call of the predicate
    or of [buildInputs] is made, nothing is posted, nothing waits, and the
    listener returns without throwing. *)
Theorem ignores_other_predicates (props : gmap string JSValue) (s : State) :
  strict_equals (field (JSObject props) "targetPredicateId")
                (JSNumber predicateId) = false →
  runWorker (JSObject props) s = (Normal tt, s)
  ∧ step (Deliver (JSObject props)) s = Some s.
Proof.
  intros Hne.
  assert (H : runWorker (JSObject props) s = (Normal tt, s)).
  { rewrite runWorker_object. unfold Worker.accepts. by rewrite Hne. }
  split; [done|]. simpl. by rewrite H.
Qed.

(** C5: for an accepted message the predicate is called on the items of
    [payload.value] when the source of the payload is ['main'] (and
    [buildInputs] is not called), and on the items of [buildInputs(payload)]
    when it is ['state']. *)
Theorem inputs_chosen_by_source
    (props payload : gmap string JSValue) (s : State) :
  accepts (JSObject props) = true →
  props !! "payload" = Some (JSObject payload) →
  (∀ value : list JSValue,
     payload !! "source" = Some (JSString "main") →
     payload !! "value" = Some (JSArray value) →
     calls (runWorker (JSObject props) s).2
       = calls s ++ [CallPredicate value])
  ∧ (∀ inputs : list JSValue,
       payload !! "source" = Some (JSString "state") →
       buildInputs (JSObject payload) = Normal (JSArray inputs) →
       calls (runWorker (JSObject props) s).2
         = calls s ++ [CallBuildInputs (JSObject payload); CallPredicate inputs]).
Proof.
  intros Hacc Hpayload.
  split.
  - intros value Hsource Hvalue.
    rewrite runWorker_object, Hacc.
    unfold Worker.inputs_of, after_inputs; simpl.
    rewrite Hpayload; simpl. rewrite Hsource, Hvalue; simpl.
    by rewrite wrapAndRunAsPromise_eq.
  - intros inputs Hsource Hbuild.
    rewrite runWorker_object, Hacc.
    unfold Worker.inputs_of, after_inputs; simpl.
    rewrite Hpayload; simpl. rewrite Hsource; simpl.
    rewrite Hbuild.
    rewrite wrapAndRunAsPromise_eq; simpl.
    by rewrite <- app_assoc.
Qed.

(** C9: when [buildInputs] throws on the state payload of an accepted
    message, the exception leaves the listener: [buildInputs] was called,
    the predicate was not, no reaction waits and nothing is posted, so that
    no response can follow for that message. *)
Theorem buildInputs_exception_escapes
    (props payload : gmap string JSValue) (e : Raised) (s : State) :
  accepts (JSObject props) = true →
  props !! "payload" = Some (JSObject payload) →
  payload !! "source" = Some (JSString "state") →
  buildInputs (JSObject payload) = Throw e →
  runWorker (JSObject props) s
    = (Throw e, logged (CallBuildInputs (JSObject payload)) s)
  ∧ ∃ s', step (Deliver (JSObject props)) s = Some s'
          ∧ posted s' = posted s
          ∧ reactions s' = reactions s
          ∧ uncaught s' = uncaught s ++ [e].
Proof.
  intros Hacc Hpayload Hsource Hbuild.
  assert (H : runWorker (JSObject props) s
              = (Throw e, logged (CallBuildInputs (JSObject payload)) s)).
  { rewrite runWorker_object, Hacc.
    unfold Worker.inputs_of, after_inputs; simpl.
    rewrite Hpayload; simpl. rewrite Hsource; simpl. by rewrite Hbuild. }
  split; [done|].
  eexists. simpl. rewrite H. simpl. done.
Qed.

Lemma after_inputs_calls (payload : JSValue) (s : State) :
  after_inputs payload s
  = MkState (calls s ++ calls (after_inputs payload initial))
            (reactions s) (posted s) (uncaught s).
Proof.
  unfold after_inputs, logged. destruct s as [cs rs ps us]; simpl.
  destruct (getProp payload "source") as [source|]; simpl;
    [|by rewrite app_nil_r].
  destruct (strict_equals source (JSString "main")); simpl; [|done].
  by rewrite app_nil_r.
Qed.

(** All that a delivery does to the worker. *)
Lemma deliver_exact (message : JSValue) (s : State) :
  record_uncaught (runWorker message s)
  = MkState (calls s ++ calls_for message)
            (reactions s ++ reaction_for message)
            (posted s)
            (uncaught s ++ uncaught_for message).
Proof.
  destruct s as [cs rs ps us].
  destruct message as [| |b|x|str|items|props];
    try (by unfold Worker.calls_for, Worker.reaction_for, Worker.uncaught_for;
         simpl; rewrite ?app_nil_r).
  rewrite runWorker_object.
  unfold Worker.calls_for, Worker.reaction_for, Worker.uncaught_for.
  change (getProp (JSObject props) "payload")
    with (Normal (E := Raised) (field (JSObject props) "payload")).
  cbv beta iota.
  destruct (accepts (JSObject props)); [|by rewrite !app_nil_r].
  set (payload := field (JSObject props) "payload").
  set (runId := field (JSObject props) "runId").
  clearbody payload runId.
  rewrite (after_inputs_calls payload).
  destruct (inputs_of payload) as [inputs|e]; [|by rewrite !app_nil_r].
  rewrite wrapAndRunAsPromise_eq. unfold Worker.promise_for.
  destruct (spread inputs) as [args|err]; simpl.
  - unfold waiting, logged; simpl. by rewrite app_nil_r, <- app_assoc.
  - unfold waiting; simpl. by rewrite !app_nil_r.
Qed.

(** All that a settlement does: the reaction leaves the waiting list and
    its answer, when there is one, is posted. *)
Lemma settle_exact (k : nat) (s s' : State) :
  step (Settle k) s = Some s' →
  ∃ r, reactions s !! k = Some r
       ∧ reaction_promise r ≠ NeverSettles
       ∧ s' = MkState (calls s) (delete k (reactions s))
                      (posted s ++ answer r) (uncaught s).
Proof.
  simpl. destruct (reactions s !! k) as [[p runId]|] eqn:Hk; [|done].
  destruct p as [output|[error|tag]|]; [| | |done]; intros [= <-];
    eexists; (split; [done|]); (split; [done|]);
    unfold answer, remove_reaction; simpl; by rewrite ?app_nil_r.
Qed.

Lemma exec_cons (ev : Event) (trace : list Event) (s : State) :
  exec (ev :: trace) s
  = match step ev s with Some s1 => exec trace s1 | None => None end.
Proof. reflexivity. Qed.

(** A run answered right after its message is delivered. *)
Lemma deliver_then_settle (message : JSValue) (r : Reaction) (s : State) :
  reaction_for message = [r] →
  reaction_promise r ≠ NeverSettles →
  exec [Deliver message; Settle (length (reactions s))] s
  = Some (MkState (calls s ++ calls_for message)
                  (reactions s)
                  (posted s ++ answer r)
                  (uncaught s ++ uncaught_for message)).
Proof.
  intros Hr Hsettles.
  rewrite exec_cons.
  change (step (Deliver message) s)
    with (Some (record_uncaught (runWorker message s))).
  rewrite deliver_exact, Hr, exec_cons.
  cbn [Worker.step reactions].
  rewrite lookup_app_r, Nat.sub_diag by done. cbn [lookup list_lookup].
  destruct r as [[output|[error|tag]|] runId]; [| | |done];
    unfold remove_reaction, onFulfilled, onRejected, postMessage, sent, answer;
    cbn [calls reactions posted uncaught structuredClone snd Worker.exec
         reaction_promise reaction_runId];
    by rewrite delete_length_app, ?app_nil_r.
Qed.

(** Each started run is either answered or still waiting, and what is
    posted is, in order, the answers of the runs whose promise settled. *)
Lemma exec_fired (trace : list Event) (s s' : State) :
  exec trace s = Some s' →
  ∃ fired,
    reactions s ++ flat_map reaction_for (deliveries trace)
      ≡ₚ fired ++ reactions s'
    ∧ Forall (λ r, reaction_promise r ≠ NeverSettles) fired
    ∧ posted s' = posted s ++ flat_map answer fired.
Proof.
  revert s. induction trace as [|ev trace IH]; intros s.
  - intros [= <-]. exists []. simpl. by rewrite !app_nil_r.
  - rewrite exec_cons.
    destruct (step ev s) as [s1|] eqn:Hstep; [|done].
    intros (fired & Hperm & Hsettled & Hposted)%IH.
    destruct ev as [message|k].
    + injection Hstep as <-. rewrite deliver_exact in Hperm, Hposted.
      simpl in Hperm, Hposted. exists fired. simpl deliveries. simpl flat_map.
      split; [by rewrite app_assoc|done].
    + destruct (settle_exact _ _ _ Hstep) as (r & Hk & Hr & ->).
      simpl in Hperm, Hposted. exists (r :: fired). simpl deliveries.
      split; [|split].
      * rewrite (delete_Permutation _ _ _ Hk). simpl. by rewrite Hperm.
      * by constructor.
      * simpl. by rewrite Hposted, app_assoc.
Qed.

(** C1 (amended): whatever the messages delivered, the number of runs in
    flight and the order in which their promises settle, the runs started
    (one for each accepted message whose inputs were obtained, with the
    [runId] of that message and the promise of the predicate on its inputs)
    split into the runs whose promise settled and the runs still waiting.
    What has been posted is, in the order of settlement, exactly the
    answers of the former: for each of them one response, carrying the
    [runId] of its message together with the output or the error of its
    own promise, except that a run rejected with an error that cannot be
    cloned gets none ([postMessage] throws).  A run still waiting has no
    response yet, and no other response is ever posted. *)
Theorem every_response_answers_one_admitted_run
    (trace : list Event) (s : State) :
  exec trace initial = Some s →
  ∃ settled,
    flat_map reaction_for (deliveries trace) ≡ₚ settled ++ reactions s
    ∧ Forall (λ r, reaction_promise r ≠ NeverSettles) settled
    ∧ posted s = flat_map answer settled.
Proof.
  intros Hexec. by apply exec_fired in Hexec.
Qed.

(** C8 (amended): the listener reads the fields [targetPredicateId],
    [runId] and [payload] of a message and no other; it ignores the message
    exactly when [targetPredicateId] is not strictly equal to the id the
    worker was registered with. *)
Theorem acceptance_decided_by_targetPredicateId
    (props : gmap string JSValue) (s : State) :
  (runWorker (JSObject props) s = (Normal tt, s)
   ↔ strict_equals (field (JSObject props) "targetPredicateId")
                   (JSNumber predicateId) = false)
  ∧ ∀ props' : gmap string JSValue,
      props' !! "targetPredicateId" = props !! "targetPredicateId" →
      props' !! "runId" = props !! "runId" →
      props' !! "payload" = props !! "payload" →
      runWorker (JSObject props') s = runWorker (JSObject props) s.
Proof.
  split.
  - split.
    + intros Hrun.
      destruct (strict_equals _ _) eqn:Hacc; [exfalso|done].
      destruct (runWorker_accepted props s Hacc) as (_ & _ & H).
      rewrite Hrun in H; simpl in H.
      destruct (inputs_of _); [|by destruct H].
      destruct H as (_ & p & Hr).
      apply (f_equal length) in Hr. rewrite length_app in Hr. simpl in Hr. lia.
    + intros Hne. rewrite runWorker_object. unfold Worker.accepts. by rewrite Hne.
  - intros props' Ht Hr Hp.
    rewrite !runWorker_object. unfold Worker.accepts; simpl.
    by rewrite Ht, Hr, Hp.
Qed.

End Runner.

(** C2 (amended): whenever one predicate throws [e] on the inputs of a run
    and another returns a promise that rejects with [e], the guarded call
    hands back, for both, a promise rejected with [e] and no exception, and
    the two workers go through the same states.  When [e] can be cloned
    both post the response [{ success: false, error: e, runId }]; when it
    cannot, [postMessage] throws inside the callback and neither posts
    anything. *)
Theorem sync_throw_same_as_rejection
    (predicateId : float)
    (throwing rejecting : list JSValue → Completion Raised Returned)
    (buildInputs : JSValue → Completion Raised JSValue)
    (props : gmap string JSValue) (inputs : JSValue) (args : list JSValue)
    (e : Raised) (s : State) :
  accepts predicateId (JSObject props) = true →
  inputs_of buildInputs (field (JSObject props) "payload") = Normal inputs →
  spread inputs = Normal args →
  throwing args = Throw e →
  rejecting args = Normal (RetPromise (WillReject e)) →
  let trace := [Deliver (JSObject props); Settle (length (reactions s))] in
  (∀ s0, wrapAndRunAsPromise throwing inputs s0
         = (Normal (WillReject e), logged (CallPredicate args) s0))
  ∧ (∀ s0, wrapAndRunAsPromise rejecting inputs s0
           = (Normal (WillReject e), logged (CallPredicate args) s0))
  ∧ ∃ s', exec predicateId throwing buildInputs trace s = Some s'
          ∧ exec predicateId rejecting buildInputs trace s = Some s'
          ∧ posted s'
            = posted s
              ++ match e with
                 | Cloneable error =>
                     [failure_message (field (JSObject props) "runId") error]
                 | Uncloneable _ => []
                 end
          ∧ reactions s' = reactions s
          ∧ uncaught s' = uncaught s.
Proof.
  intros Hacc Hinputs Hspread Hthrow Hreject trace.
  assert (Hwrap : ∀ predicate s0,
            (predicate args = Throw e
             ∨ predicate args = Normal (RetPromise (WillReject e))) →
            wrapAndRunAsPromise predicate inputs s0
            = (Normal (WillReject e), logged (CallPredicate args) s0)).
  { intros predicate s0 Hp. rewrite wrapAndRunAsPromise_eq, Hspread.
    by destruct Hp as [-> | ->]. }
  split; [intros s0; apply Hwrap; by left|].
  split; [intros s0; apply Hwrap; by right|].
  assert (Hrun : ∀ predicate,
            promise_for predicate inputs = WillReject e →
            exec predicateId predicate buildInputs trace s
            = Some (MkState
                      (calls s ++ calls_for predicateId buildInputs (JSObject props))
                      (reactions s)
                      (posted s
                       ++ answer (MkReaction (WillReject e)
                                             (field (JSObject props) "runId")))
                      (uncaught s))).
  { intros predicate Hp.
    unfold trace.
    rewrite (deliver_then_settle predicateId predicate buildInputs _
               (MkReaction (WillReject e) (field (JSObject props) "runId")));
      [| by unfold reaction_for; rewrite Hacc, Hinputs, Hp | done].
    do 2 f_equal. unfold uncaught_for.
    change (getProp (JSObject props) "payload")
      with (Normal (E := Raised) (field (JSObject props) "payload")).
    cbv beta iota. by rewrite Hacc, Hinputs, app_nil_r. }
  eexists. split; [apply Hrun; unfold promise_for; by rewrite Hspread, Hthrow|].
  split; [apply Hrun; unfold promise_for; by rewrite Hspread, Hreject|].
  by destruct e.
Qed.

(** C6: a worker registered for predicate 1 that receives the run message
    [{targetPredicateId: 1, runId: 100, payload: {source: 'state', ...}}],
    whose reconstructed inputs make the predicate settle with [undefined],
    posts [{runId: 100, success: true, output: undefined}] and nothing
    else. *)
Theorem scenario_state_payload_success
    (predicate : list JSValue → Completion Raised Returned)
    (buildInputs : JSValue → Completion Raised JSValue)
    (payload : gmap string JSValue) (inputs : list JSValue) (r : Returned) :
  payload !! "source" = Some (JSString "state") →
  buildInputs (JSObject payload) = Normal (JSArray inputs) →
  predicate inputs = Normal r →
  Promise_resolve r = WillFulfill JSUndefined →
  exec 1 predicate buildInputs
    [ Deliver (run_message (JSNumber 1) (JSNumber 100) (JSObject payload));
      Settle 0 ]
    initial
  = Some (MkState [CallBuildInputs (JSObject payload); CallPredicate inputs]
                  []
                  [success_message (JSNumber 100) JSUndefined]
                  []).
Proof.
  intros Hsource Hbuild Hpred Hresolve.
  unfold exec, step, run_message.
  rewrite runWorker_object.
  change (accepts 1 (JSObject (message_props (JSNumber 1) (JSNumber 100) (JSObject payload))))
    with true.
  cbn [field message_props]. 
  change (default JSUndefined (message_props (JSNumber 1) (JSNumber 100) (JSObject payload) !! "payload"))
    with (JSObject payload).
  unfold inputs_of, after_inputs; simpl getProp.
  rewrite Hsource; simpl. rewrite Hbuild.
  rewrite wrapAndRunAsPromise_eq; simpl. rewrite Hpred, Hresolve.
  reflexivity.
Qed.

Import Samples.

Lemma ignores_other_predicates_witness :
  runWorker 1 below_fifty from_seed
    (run_message (JSNumber 2) (JSNumber 100) (JSObject (main_payload 3))) initial
  = (Normal tt, initial)
  ∧ step 1 below_fifty from_seed
      (Deliver (run_message (JSNumber 2) (JSNumber 100) (JSObject (main_payload 3))))
      initial
    = Some initial.
Proof.
  exact (ignores_other_predicates 1 below_fifty from_seed
           (message_props (JSNumber 2) (JSNumber 100) (JSObject (main_payload 3)))
           initial eq_refl).
Defined.

Lemma inputs_chosen_by_source_witness :
  calls (runWorker 1 below_fifty from_seed
           (run_message (JSNumber 1) (JSNumber 100) (JSObject (main_payload 3)))
           initial).2
  = [CallPredicate [JSNumber 3]]
  ∧ calls (runWorker 1 below_fifty from_seed
             (run_message (JSNumber 1) (JSNumber 100) (JSObject (state_payload 3)))
             initial).2
    = [CallBuildInputs (JSObject (state_payload 3)); CallPredicate [JSNumber 3]].
Proof.
  split.
  - exact (proj1 (inputs_chosen_by_source 1 below_fifty from_seed
                    (message_props (JSNumber 1) (JSNumber 100) (JSObject (main_payload 3)))
                    (main_payload 3) initial eq_refl eq_refl)
                 [JSNumber 3] eq_refl eq_refl).
  - exact (proj2 (inputs_chosen_by_source 1 below_fifty from_seed
                    (message_props (JSNumber 1) (JSNumber 100) (JSObject (state_payload 3)))
                    (state_payload 3) initial eq_refl eq_refl)
                 [JSNumber 3] eq_refl eq_refl).
Defined.

Lemma buildInputs_exception_escapes_witness :
  runWorker 1 below_fifty from_seed
    (run_message (JSNumber 1) (JSNumber 100) (JSObject seedless_payload)) initial
  = (Throw (Cloneable (JSString "unknown state")),
     logged (CallBuildInputs (JSObject seedless_payload)) initial)
  ∧ ∃ s', step 1 below_fifty from_seed
            (Deliver (run_message (JSNumber 1) (JSNumber 100) (JSObject seedless_payload)))
            initial = Some s'
          ∧ posted s' = posted initial
          ∧ reactions s' = reactions initial
          ∧ uncaught s' = uncaught initial ++ [Cloneable (JSString "unknown state")].
Proof.
  exact (buildInputs_exception_escapes 1 below_fifty from_seed
           (message_props (JSNumber 1) (JSNumber 100) (JSObject seedless_payload))
           seedless_payload (Cloneable (JSString "unknown state")) initial
           eq_refl eq_refl eq_refl eq_refl).
Defined.

Lemma sync_throw_same_as_rejection_witness :
  let props :=
    message_props (JSNumber 1) (JSNumber 100) (JSObject (main_payload 73)) in
  let inputs := JSArray [JSNumber 73] in
  let e := JSString "Property failed" in
  let trace := [Deliver (JSObject props); Settle 0] in
  (∀ s0, wrapAndRunAsPromise below_fifty inputs s0
         = (Normal (WillReject e), logged (CallPredicate [JSNumber 73]) s0))
  ∧ (∀ s0, wrapAndRunAsPromise below_fifty_async inputs s0
           = (Normal (WillReject e), logged (CallPredicate [JSNumber 73]) s0))
  ∧ ∃ s', exec 1 below_fifty from_seed trace initial = Some s'
          ∧ exec 1 below_fifty_async from_seed trace initial = Some s'
          ∧ posted s' = [failure_message (JSNumber 100) e]
          ∧ reactions s' = []
          ∧ uncaught s' = [].
Proof.
  intros props inputs e trace.
  exact (sync_throw_same_as_rejection 1 below_fifty below_fifty_async from_seed
           props inputs [JSNumber 73] e initial
           eq_refl eq_refl eq_refl eq_refl eq_refl).
Defined.

(** C2, as stated, fails: this error cannot be cloned; whether it is thrown
    or is the reason of a rejection, [postMessage] throws in the callback,
    no failure response is posted and no run is left waiting. *)
Lemma uncloneable_error_gets_no_response :
  let message :=
    run_message (JSNumber 1) (JSNumber 100) (JSObject (main_payload 3)) in
  let unanswered := MkState [CallPredicate [JSNumber 3]] [] [] [] in
  exec 1 throwing_uncloneable from_seed [Deliver message; Settle 0] initial
  = Some unanswered
  ∧ exec 1 rejecting_uncloneable from_seed [Deliver message; Settle 0] initial
    = Some unanswered
  ∧ onRejected (JSNumber 100) (Uncloneable "an error that holds a function")
               unanswered
    = (Throw (Cloneable (DataCloneError "The message could not be cloned")),
       unanswered).
Proof. by repeat split. Qed.

Lemma scenario_state_payload_success_witness :
  exec 1 below_fifty from_seed
    [ Deliver (run_message (JSNumber 1) (JSNumber 100) (JSObject (state_payload 3)));
      Settle 0 ]
    initial
  = Some (MkState [ CallBuildInputs (JSObject (state_payload 3));
                    CallPredicate [JSNumber 3] ]
                  []
                  [success_message (JSNumber 100) JSUndefined]
                  []).
Proof.
  exact (scenario_state_payload_success below_fifty from_seed
           (state_payload 3) [JSNumber 3] (RetValue JSUndefined)
           eq_refl eq_refl eq_refl eq_refl).
Defined.

(** Two runs in flight, settled in the order opposite to their delivery. *)
Lemma every_response_answers_one_admitted_run_witness :
  let trace :=
    [ Deliver (run_message (JSNumber 1) (JSNumber 100) (JSObject (main_payload 3)));
      Deliver (run_message (JSNumber 1) (JSNumber 101) (JSObject (state_payload 73)));
      Deliver (run_message (JSNumber 2) (JSNumber 102) (JSObject (main_payload 3)));
      Settle 1; Settle 0 ] in
  let s :=
    MkState [ CallPredicate [JSNumber 3];
              CallBuildInputs (JSObject (state_payload 73));
              CallPredicate [JSNumber 73] ]
            []
            [ failure_message (JSNumber 101) (JSString "Property failed");
              success_message (JSNumber 100) JSUndefined ]
            [] in
  exec 1 below_fifty from_seed trace initial = Some s
  ∧ ∃ settled,
      flat_map (reaction_for 1 below_fifty from_seed) (deliveries trace)
        ≡ₚ settled ++ reactions s
      ∧ Forall (λ r, reaction_promise r ≠ NeverSettles) settled
      ∧ posted s = flat_map answer settled.
Proof.
  intros trace s.
  split; [reflexivity|].
  exact (every_response_answers_one_admitted_run 1 below_fifty from_seed
           trace s eq_refl).
Defined.

(** C1, as stated, fails: this message is accepted, [buildInputs] throws on
    its payload, and no response is ever posted for it. *)
Lemma accepted_message_without_response :
  let message :=
    run_message (JSNumber 1) (JSNumber 7) (JSObject seedless_payload) in
  accepts 1 message = true
  ∧ exec 1 below_fifty from_seed [Deliver message] initial
    = Some (MkState [CallBuildInputs (JSObject seedless_payload)] [] []
                    [Cloneable (JSString "unknown state")])
  ∧ ∀ (ks : list nat) (s : State),
      exec 1 below_fifty from_seed (Deliver message :: map Settle ks) initial
        = Some s →
      posted s = [].
Proof.
  intros message.
  split; [reflexivity|]. split; [reflexivity|].
  intros ks s.
  change (exec 1 below_fifty from_seed (Deliver message :: map Settle ks) initial)
    with (exec 1 below_fifty from_seed (map Settle ks)
            (MkState [CallBuildInputs (JSObject seedless_payload)] [] []
                     [Cloneable (JSString "unknown state")])).
  destruct ks as [|k ks]; simpl.
  - by intros [= <-].
  - done.
Qed.

(** C8, as stated, fails: a field named [predicateId] decides nothing.  The
    first message carries the registered id in [predicateId] and is
    ignored; the second carries another id there and is run. *)
Lemma predicateId_field_is_not_read :
  let named : gmap string JSValue :=
    {[ "predicateId" := JSNumber 1; "runId" := JSNumber 100;
       "payload" := JSObject (main_payload 3) ]} in
  let targeted : gmap string JSValue :=
    <[ "predicateId" := JSNumber 2 ]>
      (message_props (JSNumber 1) (JSNumber 100) (JSObject (main_payload 3))) in
  (strict_equals (field (JSObject named) "predicateId") (JSNumber 1) = true
   ∧ runWorker 1 below_fifty from_seed (JSObject named) initial
     = (Normal tt, initial))
  ∧ (strict_equals (field (JSObject targeted) "predicateId") (JSNumber 1) = false
     ∧ runWorker 1 below_fifty from_seed (JSObject targeted) initial
       = (Normal tt,
          MkState [CallPredicate [JSNumber 3]]
                  [MkReaction (WillFulfill JSUndefined) (JSNumber 100)] [] [])).
Proof. by repeat split. Qed.

End WorkerSpec.

(* ===================================================================== *)
(** * Further properties of integer.ts *)
(* ===================================================================== *)
Module IntegerExtra.
Import Integer IntegerSpec.

(** Comparing two IEEE values the other way round gives the opposite
    answer. *)
Lemma SFcompare_antisym (x y : spec_float) :
  SFcompare x y = option_map CompOpp (SFcompare y x).
Proof.
  destruct x as [sx|sx| |sx mx ex], y as [sy|sy| |sy my ey]; simpl;
    try done; try (by destruct sx); try (by destruct sy);
    try (by destruct sx, sy).
  f_equal.
  rewrite (Z.compare_antisym ex ey).
  change (Pos.compare_cont Eq my mx) with (Pos.compare_cont (CompOpp Eq) my mx).
  rewrite <- (Pos.compare_cont_antisym mx my Eq).
  destruct sx, sy; simpl; try done;
    by destruct (ex ?= ey)%Z, (Pos.compare_cont Eq mx my).
Qed.

Lemma isInteger_not_nan (x : float) :
  Number_isInteger x = true → Prim2SF x ≠ S754_nan.
Proof. unfold Number_isInteger. by destruct (Prim2SF x). Qed.

(** [!(max < min)] gives [min <= max] as soon as neither is NaN. *)
Lemma not_gt_leb (mn mx : float) :
  Prim2SF mn ≠ S754_nan → Prim2SF mx ≠ S754_nan →
  PrimFloat.ltb mx mn = false → PrimFloat.leb mn mx = true.
Proof.
  rewrite ltb_spec, leb_spec. unfold SFltb, SFleb.
  rewrite (SFcompare_antisym (Prim2SF mn) (Prim2SF mx)).
  intros Hmn Hmx.
  destruct (SFcompare (Prim2SF mx) (Prim2SF mn)) as [[| |]|] eqn:Hc; simpl;
    try done.
  destruct (Prim2SF mn), (Prim2SF mx); try done;
    by repeat match goal with s : bool |- _ => destruct s end.
Qed.

Lemma getProp_app_old (h new : Heap) (l : loc) (k : string) :
  l < length h → getProp (h ++ new) l k = getProp h l k.
Proof. intros Hl. unfold getProp. by rewrite lookup_app_l. Qed.

(** [integer] only allocates, and the arbitrary it returns is one of the
    objects it allocated. *)
Lemma integer_allocates (arg : option loc) (h : Heap) :
  ∃ new, (integer arg h).2 = h ++ new
         ∧ ∀ a, (integer arg h).1 = Normal a →
                length h ≤ a < length (integer arg h).2.
Proof.
  rewrite integer_eq.
  set (full := ({[ "min" := _; "max" := _ ]} : Obj)).
  assert (Hentry : ∃ pre, entry_heap arg h = h ++ pre).
  { destruct arg; [exists []; by rewrite app_nil_r | by exists [∅]]. }
  destruct Hentry as (pre & ->).
  destruct (PrimFloat.ltb _ _); [|destruct (negb _); [|destruct (negb _)]]; simpl.
  1-3: exists (pre ++ [full]); split; [by rewrite app_assoc | by intros a [=]].
  exists (pre ++ [full; full]).
  split; [by rewrite <- !app_assoc|].
  intros a [= <-]. rewrite !length_app; simpl. lia.
Qed.

(** What the caller observes, in terms of the bounds after the defaults. *)
Lemma observed_integer (arg : option loc) (h : Heap) :
  let mn := bound_or default_min (arg_prop h arg "min") in
  let mx := bound_or default_max (arg_prop h arg "max") in
  observed (integer arg h) =
    if PrimFloat.ltb mx mn then
      Throw (Error "fc.integer maximum value should be equal or greater than the minimum one")
    else if negb (Number_isInteger mn) then
      Throw (Error "fc.integer minimum value should be an integer")
    else if negb (Number_isInteger mx) then
      Throw (Error "fc.integer maximum value should be an integer")
    else Normal (num mn, num mx).
Proof.
  intros mn mx. unfold observed. rewrite integer_eq. fold mn mx.
  destruct (PrimFloat.ltb mx mn); [done|].
  destruct (negb (Number_isInteger mn)); [done|].
  destruct (negb (Number_isInteger mx)); [done|]. simpl.
  replace (S (length (entry_heap arg h)))
    with (length (entry_heap arg h ++ [{[ "min" := num mn; "max" := num mx ]}]))
    by (rewrite length_app; simpl; lia).
  by rewrite !getProp_alloc_fresh.
Qed.

(** X1: an arbitrary returned by [integer] has a valid range: its two
    bounds are integers (so neither is NaN or infinite) and [min <= max]. *)
Theorem integer_returns_valid_range (arg : option loc) (h : Heap) (a : loc) :
  (integer arg h).1 = Normal a →
  ∃ mn mx : float,
    getProp (integer arg h).2 a "min" = num mn
    ∧ getProp (integer arg h).2 a "max" = num mx
    ∧ Number_isInteger mn = true
    ∧ Number_isInteger mx = true
    ∧ PrimFloat.leb mn mx = true.
Proof.
  intros Hret.
  pose proof (integer_outcome arg h) as H; simpl in H. rewrite Hret in H.
  destruct H as (Hvalid & Hmin & Hmax).
  eexists _, _. split; [exact Hmin|]. split; [exact Hmax|].
  unfold invalid_bounds in Hvalid.
  destruct (Number_isInteger (bound_or default_min _)) eqn:Hmn;
    [|exfalso; apply Hvalid; by right; left].
  destruct (Number_isInteger (bound_or default_max _)) eqn:Hmx;
    [|exfalso; apply Hvalid; by right; right].
  do 2 (split; [done|]).
  apply not_gt_leb; [by apply isInteger_not_nan..|].
  destruct (PrimFloat.ltb _ _) eqn:Hlt; [|done].
  exfalso; apply Hvalid; by left.
Qed.

Lemma integer_returns_valid_range_witness :
  ∃ mn mx : float,
    getProp (integer (Some 0) [ {[ "min" := num (-99); "max" := num 99 ]} ]).2 2 "min"
      = num mn
    ∧ getProp (integer (Some 0) [ {[ "min" := num (-99); "max" := num 99 ]} ]).2 2 "max"
      = num mx
    ∧ Number_isInteger mn = true
    ∧ Number_isInteger mx = true
    ∧ PrimFloat.leb mn mx = true.
Proof.
  exact (integer_returns_valid_range
           (Some 0) [ {[ "min" := num (-99); "max" := num 99 ]} ] 2 eq_refl).
Defined.

(** X2: the error thrown by [integer] names the first check that fails, in
    the order: inverted bounds, [min] not an integer, [max] not an integer.
    Bounds that are both inverted and fractional are reported as inverted;
    a NaN bound is never reported as inverted. *)
Theorem integer_reports_first_failed_check (arg : option loc) (h : Heap) :
  let mn := bound_or (-2147483648) (arg_prop h arg "min") in
  let mx := bound_or 2147483647 (arg_prop h arg "max") in
  (PrimFloat.ltb mx mn = true →
   (integer arg h).1
   = Throw (Error "fc.integer maximum value should be equal or greater than the minimum one"))
  ∧ (PrimFloat.ltb mx mn = false → Number_isInteger mn = false →
     (integer arg h).1
     = Throw (Error "fc.integer minimum value should be an integer"))
  ∧ (PrimFloat.ltb mx mn = false → Number_isInteger mn = true →
     Number_isInteger mx = false →
     (integer arg h).1
     = Throw (Error "fc.integer maximum value should be an integer")).
Proof.
  intros mn mx. rewrite integer_eq.
  change (bound_or default_min (arg_prop h arg "min")) with mn.
  change (bound_or default_max (arg_prop h arg "max")) with mx.
  split; [by intros ->|].
  split; [by intros -> ->|by intros -> -> ->].
Qed.

(** X3: [integer] reads nothing of its argument but [min] and [max]: two
    calls whose arguments agree on these two fields throw the same error or
    return arbitraries with the same bounds, whatever else the constraints
    objects hold and whatever the heaps. *)
Theorem integer_reads_only_min_and_max
    (arg1 arg2 : option loc) (h1 h2 : Heap) :
  arg_prop h1 arg1 "min" = arg_prop h2 arg2 "min" →
  arg_prop h1 arg1 "max" = arg_prop h2 arg2 "max" →
  observed (integer arg1 h1) = observed (integer arg2 h2).
Proof.
  intros Hmin Hmax.
  rewrite (observed_integer arg1 h1), (observed_integer arg2 h2); simpl.
  by rewrite Hmin, Hmax.
Qed.

Lemma integer_reads_only_min_and_max_witness :
  observed (integer (Some 1)
              [ ∅; {[ "min" := num 1; "max" := num 9; "step" := num 2 ]} ])
  = observed (integer (Some 0) [ {[ "max" := num 9; "min" := num 1 ]} ]).
Proof.
  exact (integer_reads_only_min_and_max
           (Some 1) (Some 0)
           [ ∅; {[ "min" := num 1; "max" := num 9; "step" := num 2 ]} ]
           [ {[ "max" := num 9; "min" := num 1 ]} ]
           eq_refl eq_refl).
Defined.

(** X4: one constraints object can serve several calls: a second call of
    [integer] on the same object observes what the first one did, returns
    another object than the first arbitrary, and leaves that first
    arbitrary as it was. *)
Theorem integer_twice_on_same_constraints
    (h : Heap) (constraints : loc) :
  constraints < length h →
  let r1 := integer (Some constraints) h in
  let r2 := integer (Some constraints) r1.2 in
  observed r2 = observed r1
  ∧ ∀ a1 a2, r1.1 = Normal a1 → r2.1 = Normal a2 →
      a1 ≠ a2 ∧ ∀ k, getProp r2.2 a1 k = getProp r1.2 a1 k.
Proof.
  intros Hc r1 r2.
  destruct (integer_allocates (Some constraints) h) as (new1 & Hh1 & Ha1).
  destruct (integer_allocates (Some constraints) r1.2) as (new2 & Hh2 & Ha2).
  fold r1 in Hh1, Ha1. fold r2 in Hh2, Ha2.
  split.
  - change (observed (integer (Some constraints) r1.2)
            = observed (integer (Some constraints) h)).
    rewrite (observed_integer (Some constraints) r1.2),
      (observed_integer (Some constraints) h); simpl.
    by rewrite Hh1, !getProp_app_old.
  - intros a1 a2 Hr1 Hr2.
    specialize (Ha1 _ Hr1). specialize (Ha2 _ Hr2).
    split; [lia|]. intros k. rewrite Hh2. apply getProp_app_old. lia.
Qed.

Lemma integer_twice_on_same_constraints_witness :
  let h : Heap := [ {[ "min" := num (-99); "max" := num 99 ]} ] in
  let r1 := integer (Some 0) h in
  let r2 := integer (Some 0) r1.2 in
  observed r2 = observed r1
  ∧ ∀ a1 a2, r1.1 = Normal a1 → r2.1 = Normal a2 →
      a1 ≠ a2 ∧ ∀ k, getProp r2.2 a1 k = getProp r1.2 a1 k.
Proof.
  intros h.
  refine (integer_twice_on_same_constraints h 0 _).
  simpl. lia.
Defined.

Lemma ltb_irrefl (x : float) : PrimFloat.ltb x x = false.
Proof.
  rewrite ltb_spec. unfold SFltb.
  pose proof (SFcompare_antisym (Prim2SF x) (Prim2SF x)) as H.
  by destruct (SFcompare (Prim2SF x) (Prim2SF x)) as [[| |]|].
Qed.

(** X15: a range of one value is accepted: when [min] and [max] are the
    same integer, [integer] returns an arbitrary with both bounds equal to
    it. *)
Theorem integer_accepts_singleton_range
    (h : Heap) (constraints : loc) (x : float) :
  getProp h constraints "min" = num x →
  getProp h constraints "max" = num x →
  Number_isInteger x = true →
  observed (integer (Some constraints) h) = Normal (num x, num x).
Proof.
  intros Hmin Hmax Hint.
  rewrite observed_integer; simpl. rewrite Hmin, Hmax; simpl.
  by rewrite ltb_irrefl, Hint.
Qed.

Lemma integer_accepts_singleton_range_witness :
  observed (integer (Some 0) [ {[ "min" := num 7; "max" := num 7 ]} ])
  = Normal (num 7, num 7).
Proof.
  exact (integer_accepts_singleton_range
           [ {[ "min" := num 7; "max" := num 7 ]} ] 0 7 eq_refl eq_refl eq_refl).
Defined.

End IntegerExtra.

(* ===================================================================== *)
(** * Further properties of WorkerRunner.ts *)
(* ===================================================================== *)
Module WorkerExtra.
Import Worker WorkerSpec.

Section Runner.

Variable predicateId : float.
Variable predicate : list JSValue → Completion Raised Returned.
Variable buildInputs : JSValue → Completion Raised JSValue.

#[local] Abbreviation runWorker := (runWorker predicateId predicate buildInputs).
#[local] Abbreviation wrapAndRunAsPromise := (wrapAndRunAsPromise predicate).
#[local] Abbreviation step := (step predicateId predicate buildInputs).
#[local] Abbreviation exec := (exec predicateId predicate buildInputs).
#[local] Abbreviation accepts := (accepts predicateId).
#[local] Abbreviation inputs_of := (inputs_of buildInputs).
#[local] Abbreviation promise_for := (promise_for predicate).
#[local] Abbreviation reaction_for := (reaction_for predicateId predicate buildInputs).
#[local] Abbreviation calls_for := (calls_for predicateId buildInputs).
#[local] Abbreviation uncaught_for := (uncaught_for predicateId buildInputs).

(** The state reached by a trace, component by component. *)
Lemma exec_exact (trace : list Event) (s s' : State) :
  exec trace s = Some s' →
  calls s' = calls s ++ flat_map calls_for (deliveries trace)
  ∧ uncaught s' = uncaught s ++ flat_map uncaught_for (deliveries trace)
  ∧ posted s' ++ flat_map answer (reactions s')
    ≡ₚ (posted s ++ flat_map answer (reactions s))
       ++ flat_map answer (flat_map reaction_for (deliveries trace)).
Proof.
  revert s. induction trace as [|ev trace IH]; intros s.
  - intros [= <-]. simpl. by rewrite !app_nil_r.
  - rewrite exec_cons.
    destruct (step ev s) as [s1|] eqn:Hstep; [|done].
    intros Hexec. destruct (IH _ Hexec) as (Hc & Hu & Hp).
    destruct ev as [message|k].
    + injection Hstep as <-. rewrite deliver_exact in Hc, Hu, Hp.
      simpl in Hc, Hu, Hp. simpl deliveries. simpl flat_map.
      rewrite Hc, Hu, Hp, !flat_map_app.
      by rewrite <- !app_assoc.
    + destruct (settle_exact _ _ _ _ _ _ Hstep) as (r & Hk & _ & ->).
      simpl in Hc, Hu, Hp. simpl deliveries.
      split; [done|]. split; [done|].
      rewrite Hp. apply Permutation_app_tail.
      pose proof (delete_Permutation _ _ _ Hk) as Hperm.
      rewrite (Permutation_flat_map answer Hperm); simpl.
      by rewrite <- app_assoc.
Qed.

(** X5: over any trace, the calls of [buildInputs] and of the predicate
    are those that the delivered messages cause, in the order of delivery:
    a settlement calls nothing, a message that is not accepted calls
    nothing, and an accepted message calls [buildInputs] at most once (when
    its payload is not from the main thread) and then the predicate at
    most once (when the inputs were obtained and can be spread). *)
Theorem calls_follow_deliveries (trace : list Event) (s : State) :
  exec trace initial = Some s →
  calls s = flat_map calls_for (deliveries trace).
Proof.
  intros Hexec. by destruct (exec_exact _ _ _ Hexec) as (-> & _ & _).
Qed.

(** X6: over any trace, the exceptions that leave the listener are those
    of reading a message or a payload that is [undefined] or [null] and
    those of [buildInputs], in the order of delivery.  What the predicate
    throws, and how its promise settles, never adds one. *)
Theorem uncaught_come_from_inputs (trace : list Event) (s : State) :
  exec trace initial = Some s →
  uncaught s = flat_map uncaught_for (deliveries trace).
Proof.
  intros Hexec. by destruct (exec_exact _ _ _ Hexec) as (_ & -> & _).
Qed.

(** X7: over any trace, the responses posted so far, together with the
    answers still owed to the runs that wait, are the answers of the runs
    that the delivered messages started: a success carrying the output
    for a promise that fulfils, a failure carrying the error for one that
    rejects with an error that can be cloned, each with the [runId] of its
    message; a promise that never settles, or that rejects with an error
    that cannot be cloned, has no answer.  Nothing else is ever posted and
    no answer is posted twice. *)
Theorem posted_are_answers_of_runs (trace : list Event) (s : State) :
  exec trace initial = Some s →
  posted s ++ flat_map answer (reactions s)
  ≡ₚ flat_map answer (flat_map reaction_for (deliveries trace)).
Proof.
  intros Hexec. by destruct (exec_exact _ _ _ Hexec) as (_ & _ & ->).
Qed.

(** X10: an accepted message without payload (the field is absent,
    [undefined] or [null]) makes the listener throw a [TypeError]; neither
    [buildInputs] nor the predicate is called and no run is started, so
    that no response follows. *)
Theorem accepted_message_without_payload
    (props : gmap string JSValue) (s : State) :
  accepts (JSObject props) = true →
  field (JSObject props) "payload" = JSUndefined
  ∨ field (JSObject props) "payload" = JSNull →
  runWorker (JSObject props) s
  = (Throw (Cloneable (TypeError "Cannot read properties of undefined or null")), s).
Proof.
  intros Hacc Hpayload.
  rewrite runWorker_object, Hacc.
  by destruct Hpayload as [-> | ->].
Qed.

(** X11: when the inputs of an accepted message cannot be spread (a
    payload from the main thread without [value], say), the predicate is
    not called, and the run is answered with a failure that carries the
    error of the spread. *)
Theorem inputs_not_iterable_fail_the_run
    (props : gmap string JSValue) (inputs err : JSValue) (s : State) :
  accepts (JSObject props) = true →
  inputs_of (field (JSObject props) "payload") = Normal inputs →
  spread inputs = Throw err →
  ∃ s', exec [Deliver (JSObject props); Settle (length (reactions s))] s = Some s'
        ∧ calls s' = calls (after_inputs (field (JSObject props) "payload") s)
        ∧ posted s' = posted s ++ [failure_message (field (JSObject props) "runId") err]
        ∧ reactions s' = reactions s
        ∧ uncaught s' = uncaught s.
Proof.
  intros Hacc Hinputs Hspread.
  eexists. split.
  - apply (deliver_then_settle predicateId predicate buildInputs _
             (MkReaction (WillReject err) (field (JSObject props) "runId"))); [|done].
    unfold Worker.reaction_for, Worker.promise_for.
    by rewrite Hacc, Hinputs, Hspread.
  - cbn [calls posted reactions uncaught].
    unfold Worker.calls_for, Worker.uncaught_for.
    change (getProp (JSObject props) "payload")
      with (Normal (E := Raised) (field (JSObject props) "payload")).
    cbv beta iota. rewrite Hacc, Hinputs, Hspread, !app_nil_r.
    by rewrite (after_inputs_calls _ s).
Qed.

End Runner.

(** X9: whenever one predicate returns [v] and another returns a promise
    that fulfils with [v], the two workers go through the same states and
    post the same response [{ success: true, output: v, runId }].  The
    worker does not look at [v]: a predicate that returns [false] is
    answered with [success: true] and [output: false]. *)
Theorem sync_return_same_as_fulfilment
    (predicateId : float)
    (returning fulfilling : list JSValue → Completion Raised Returned)
    (buildInputs : JSValue → Completion Raised JSValue)
    (props : gmap string JSValue) (inputs : JSValue) (args : list JSValue)
    (v : JSValue) (s : State) :
  accepts predicateId (JSObject props) = true →
  inputs_of buildInputs (field (JSObject props) "payload") = Normal inputs →
  spread inputs = Normal args →
  returning args = Normal (RetValue v) →
  fulfilling args = Normal (RetPromise (WillFulfill v)) →
  let trace := [Deliver (JSObject props); Settle (length (reactions s))] in
  ∃ s', exec predicateId returning buildInputs trace s = Some s'
        ∧ exec predicateId fulfilling buildInputs trace s = Some s'
        ∧ posted s' = posted s ++ [success_message (field (JSObject props) "runId") v]
        ∧ reactions s' = reactions s
        ∧ uncaught s' = uncaught s.
Proof.
  intros Hacc Hinputs Hspread Hret Hful trace.
  assert (Hrun : ∀ predicate,
            promise_for predicate inputs = WillFulfill v →
            exec predicateId predicate buildInputs trace s
            = Some (MkState
                      (calls s ++ calls_for predicateId buildInputs (JSObject props))
                      (reactions s)
                      (posted s ++ [success_message (field (JSObject props) "runId") v])
                      (uncaught s))).
  { intros predicate Hp.
    unfold trace.
    rewrite (deliver_then_settle predicateId predicate buildInputs _
               (MkReaction (WillFulfill v) (field (JSObject props) "runId")));
      [| by unfold reaction_for; rewrite Hacc, Hinputs, Hp | done].
    do 2 f_equal. unfold uncaught_for.
    change (getProp (JSObject props) "payload")
      with (Normal (E := Raised) (field (JSObject props) "payload")).
    cbv beta iota. by rewrite Hacc, Hinputs, app_nil_r. }
  eexists. split; [apply Hrun; unfold promise_for; by rewrite Hspread, Hret|].
  split; [apply Hrun; unfold promise_for; by rewrite Hspread, Hful|].
  done.
Qed.

Import Samples.

Lemma calls_follow_deliveries_witness :
  exec 1 below_fifty from_seed (sample_deliveries ++ [Settle 1; Settle 0]) initial
  = Some sample_state_101_100
  ∧ calls sample_state_101_100
    = flat_map (calls_for 1 from_seed)
               (deliveries (sample_deliveries ++ [Settle 1; Settle 0])).
Proof.
  split; [reflexivity|].
  exact (calls_follow_deliveries 1 below_fifty from_seed
           (sample_deliveries ++ [Settle 1; Settle 0]) sample_state_101_100
           eq_refl).
Defined.

Lemma uncaught_come_from_inputs_witness :
  exec 1 below_fifty from_seed (sample_deliveries ++ [Settle 1; Settle 0]) initial
  = Some sample_state_101_100
  ∧ uncaught sample_state_101_100
    = flat_map (uncaught_for 1 from_seed)
               (deliveries (sample_deliveries ++ [Settle 1; Settle 0])).
Proof.
  split; [reflexivity|].
  exact (uncaught_come_from_inputs 1 below_fifty from_seed
           (sample_deliveries ++ [Settle 1; Settle 0]) sample_state_101_100
           eq_refl).
Defined.

Lemma posted_are_answers_of_runs_witness :
  exec 1 below_fifty from_seed (sample_deliveries ++ [Settle 1; Settle 0]) initial
  = Some sample_state_101_100
  ∧ posted sample_state_101_100 ++ flat_map answer (reactions sample_state_101_100)
    ≡ₚ flat_map answer
         (flat_map (reaction_for 1 below_fifty from_seed)
                   (deliveries (sample_deliveries ++ [Settle 1; Settle 0]))).
Proof.
  split; [reflexivity|].
  exact (posted_are_answers_of_runs 1 below_fifty from_seed
           (sample_deliveries ++ [Settle 1; Settle 0]) sample_state_101_100
           eq_refl).
Defined.

Lemma sync_return_same_as_fulfilment_witness :
  let props :=
    message_props (JSNumber 1) (JSNumber 100) (JSObject (main_payload 73)) in
  let trace := [Deliver (JSObject props); Settle 0] in
  ∃ s', exec 1 is_below_fifty from_seed trace initial = Some s'
        ∧ exec 1 is_below_fifty_async from_seed trace initial = Some s'
        ∧ posted s' = [success_message (JSNumber 100) (JSBoolean false)]
        ∧ reactions s' = []
        ∧ uncaught s' = [].
Proof.
  intros props trace.
  exact (sync_return_same_as_fulfilment 1 is_below_fifty is_below_fifty_async
           from_seed props (JSArray [JSNumber 73]) [JSNumber 73]
           (JSBoolean false) initial
           eq_refl eq_refl eq_refl eq_refl eq_refl).
Defined.

Lemma accepted_message_without_payload_witness :
  runWorker 1 below_fifty from_seed
    (JSObject {[ "targetPredicateId" := JSNumber 1; "runId" := JSNumber 100 ]})
    initial
  = (Throw (Cloneable (TypeError "Cannot read properties of undefined or null")), initial).
Proof.
  exact (accepted_message_without_payload 1 below_fifty from_seed
           {[ "targetPredicateId" := JSNumber 1; "runId" := JSNumber 100 ]}
           initial eq_refl (or_introl eq_refl)).
Defined.

Lemma inputs_not_iterable_fail_the_run_witness :
  let props :=
    message_props (JSNumber 1) (JSNumber 100)
                  (JSObject {[ "source" := JSString "main" ]}) in
  ∃ s', exec 1 below_fifty from_seed [Deliver (JSObject props); Settle 0] initial
        = Some s'
        ∧ calls s' = []
        ∧ posted s'
          = [failure_message (JSNumber 100)
               (TypeError "Spread syntax requires an iterable")]
        ∧ reactions s' = []
        ∧ uncaught s' = [].
Proof.
  intros props.
  exact (inputs_not_iterable_fail_the_run 1 below_fifty from_seed
           props JSUndefined (TypeError "Spread syntax requires an iterable")
           initial eq_refl eq_refl eq_refl).
Defined.

End WorkerExtra.

(* ===================================================================== *)
(** * Properties of the Safe Release script *)
(* ===================================================================== *)
Module SafeReleaseSpec.
Import SafeRelease.

Lemma check_file_eq (file : string) (fileContent : Json) :
  fileContent ≠ JNull →
  check_file file fileContent =
    if is_private fileContent then Normal tt
    else
      match check_versions "Dependencies" file
              (versions_under "dependencies" fileContent) with
      | Throw e => Throw e
      | Normal _ =>
          check_versions "Peer-Dependencies" file
            (versions_under "peerDependencies" fileContent)
      end.
Proof.
  intros Hnull. unfold check_file, is_private, versions_under.
  by destruct fileContent.
Qed.

Lemma check_versions_strings (label file : string) (versions : list Json) :
  Forall (λ v, is_string v = true) versions →
  check_versions label file versions = Normal tt
  ↔ Forall (λ v, refers_to_workspace v = false) versions.
Proof.
  induction 1 as [|v versions Hv _ IH]; simpl; [done|].
  destruct v as [| | |s| |]; try done. simpl.
  rewrite Forall_cons. simpl.
  destruct (String.prefix "workspace:" s); [|by rewrite IH; intuition].
  split; [done|]. by intros [? _].
Qed.

Lemma check_versions_error (label file message : string) (versions : list Json) :
  check_versions label file versions = Throw (Error message) →
  ∃ v, JString v ∈ versions
       ∧ String.prefix "workspace:" v = true
       ∧ message = (label ++ " cannot start by workspace at release time, got: "
                    ++ v ++ " in " ++ file)%string.
Proof.
  induction versions as [|v versions IH]; simpl; [done|].
  destruct v as [| | |s| |]; try done.
  destruct (String.prefix "workspace:" s) eqn:Hs.
  - intros [= <-]. exists s. split; [by left|done].
  - intros (v & Hv & H)%IH. exists v. split; [by right|done].
Qed.

Lemma check_file_passes (file : string) (fileContent : Json) :
  readable fileContent →
  check_file file fileContent = Normal tt ↔ releasable fileContent.
Proof.
  intros (Hnull & Hstrings). rewrite check_file_eq by done. unfold releasable.
  destruct (is_private fileContent); [by intuition|].
  specialize (Hstrings eq_refl). apply Forall_app in Hstrings as (Hdeps & Hpeer).
  rewrite Forall_app.
  rewrite <- (check_versions_strings "Dependencies" file _ Hdeps).
  rewrite <- (check_versions_strings "Peer-Dependencies" file _ Hpeer).
  destruct (check_versions "Dependencies" file _) as [[]|e].
  - split; [by right|]. by intros [|[_ ?]].
  - split; [done|]. by intros [|[? _]].
Qed.

(** X12: over manifests that the script can read to the end, the check
    passes if and only if every package that is not private has no version
    starting with ['workspace:'] under [dependencies] and
    [peerDependencies]. *)
Theorem safe_release_passes_iff_releasable (files : list (string * Json)) :
  Forall (λ p, readable p.2) files →
  safe_release files = Normal tt ↔ Forall (λ p, releasable p.2) files.
Proof.
  induction 1 as [|[file fileContent] files Hreadable _ IH]; simpl in *;
    [done|].
  rewrite Forall_cons; simpl.
  rewrite <- (check_file_passes file fileContent Hreadable), <- IH.
  destruct (check_file file fileContent) as [[]|e]; [by intuition|].
  split; [done|]. by intros [? _].
Qed.

(** X13: an [Error] of the script always points at a real entry: its
    message quotes a version that starts with ['workspace:'], listed under
    [dependencies] (message starting with Dependencies) or
    [peerDependencies] (Peer-Dependencies) of a package that is not
    private, together with the path of that package. *)
Theorem safe_release_error_is_genuine
    (files : list (string * Json)) (message : string) :
  safe_release files = Throw (Error message) →
  ∃ file fileContent label k version,
    (file, fileContent) ∈ files
    ∧ is_private fileContent = false
    ∧ ((label, k) = ("Dependencies", "dependencies")
       ∨ (label, k) = ("Peer-Dependencies", "peerDependencies"))
    ∧ JString version ∈ versions_under k fileContent
    ∧ String.prefix "workspace:" version = true
    ∧ message = (label ++ " cannot start by workspace at release time, got: "
                 ++ version ++ " in " ++ file)%string.
Proof.
  induction files as [|[file fileContent] files IH]; simpl; [done|].
  destruct (check_file file fileContent) as [[]|e] eqn:Hfile.
  - intros (f & c & label & k & v & Hin & H)%IH.
    exists f, c, label, k, v. split; [by right|done].
  - intros [= ->]. exists file, fileContent.
    assert (Hnull : fileContent ≠ JNull) by (by intros ->).
    rewrite check_file_eq in Hfile by done.
    destruct (is_private fileContent); [done|].
    destruct (check_versions "Dependencies" file _) as [[]|e] eqn:Hdeps.
    + apply check_versions_error in Hfile as (v & Hv & Hprefix & ->).
      exists "Peer-Dependencies", "peerDependencies", v.
      split; [by left|]. split; [done|]. split; [by right|done].
    + injection Hfile as ->.
      apply check_versions_error in Hdeps as (v & Hv & Hprefix & ->).
      exists "Dependencies", "dependencies", v.
      split; [by left|]. split; [done|]. split; [by left|done].
Qed.

(** X14: the check looks at nothing but [private], [dependencies] and
    [peerDependencies]: replacing every manifest by one that is private
    when it is, and otherwise has the same two fields, does not change the
    outcome.  Versions under [devDependencies], and everything in a
    private package, are never inspected. *)
Theorem safe_release_ignores_the_rest (files1 files2 : list (string * Json)) :
  Forall2 (λ p1 p2, p1.1 = p2.1 ∧ same_for_release p1.2 p2.2) files1 files2 →
  safe_release files1 = safe_release files2.
Proof.
  induction 1 as [|[file1 c1] [file2 c2] files1 files2 Hsame _ IH]; simpl in *;
    [done|].
  destruct Hsame as (-> & Hnull1 & Hnull2 & Hprivate & Hfields).
  rewrite !check_file_eq by done. unfold versions_under.
  rewrite <- Hprivate.
  destruct (is_private c1); [done|].
  destruct (Hfields eq_refl) as (<- & <-). by rewrite IH.
Qed.

Lemma safe_release_passes_iff_releasable_witness :
  safe_release [ ("packages/fast-check/package.json", library_manifest);
                 ("website/package.json", website_manifest) ] = Normal tt
  ↔ Forall (λ p, releasable p.2)
           [ ("packages/fast-check/package.json", library_manifest);
             ("website/package.json", website_manifest) ].
Proof.
  refine (safe_release_passes_iff_releasable
            [ ("packages/fast-check/package.json", library_manifest);
              ("website/package.json", website_manifest) ] _).
  repeat constructor; try done.
Defined.

Lemma safe_release_error_is_genuine_witness :
  ∃ file fileContent label k version,
    (file, fileContent)
      ∈ [ ("packages/fast-check/package.json", library_manifest);
          ("packages/worker/package.json", worker_manifest) ]
    ∧ is_private fileContent = false
    ∧ ((label, k) = ("Dependencies", "dependencies")
       ∨ (label, k) = ("Peer-Dependencies", "peerDependencies"))
    ∧ JString version ∈ versions_under k fileContent
    ∧ String.prefix "workspace:" version = true
    ∧ "Peer-Dependencies cannot start by workspace at release time, got: workspace:* in packages/worker/package.json"
      = (label ++ " cannot start by workspace at release time, got: "
         ++ version ++ " in " ++ file)%string.
Proof.
  exact (safe_release_error_is_genuine
           [ ("packages/fast-check/package.json", library_manifest);
             ("packages/worker/package.json", worker_manifest) ]
           _ eq_refl).
Defined.

Lemma safe_release_ignores_the_rest_witness :
  safe_release [ ("packages/fast-check/package.json", library_manifest);
                 ("website/package.json", website_manifest) ]
  = safe_release [ ("packages/fast-check/package.json", library_manifest_trimmed);
                   ("website/package.json", JObject [("private", JString "yes")]) ].
Proof.
  refine (safe_release_ignores_the_rest
            [ ("packages/fast-check/package.json", library_manifest);
              ("website/package.json", website_manifest) ]
            [ ("packages/fast-check/package.json", library_manifest_trimmed);
              ("website/package.json", JObject [("private", JString "yes")]) ] _).
  repeat constructor; try done.
Defined.

End SafeReleaseSpec.
